(** * The device-side AST expression evaluator of cudf

    A shallow embedding of
    [cpp/include/cudf/ast/detail/expression_evaluator.cuh]:
    the result containers, the input resolver, the output handlers and the
    per-row driver [evaluate], followed by the properties the specification
    states about them.

    Conventions of the embedding.
    - A template type parameter ([Element], [Input], [LHS], ...) is an
      explicit argument of type [type_id]; a value of that C++ type lives in
      [Elem T].
    - The compile-time flag [has_nulls] is an explicit [bool]; code under
      [if constexpr (has_nulls)] is a dependent [match] on it.
    - [cudf::size_type] is [Z].
    - The evaluator is [const] in every method; the only memory it writes is
      the per-thread scratch behind the pointer [thread_intermediate_storage]
      and the output object.  Both are threaded explicitly: a method that
      returns [void] in the source returns the updated pair here.
    - The handlers pass the output object a [possibly_null_value_t] at the
      evaluator's [has_nulls]; the output object is taken at that same flag.
    - A failed [cudf_assert] and behaviour the source leaves undefined end
      the computation with a dedicated [outcome]. *)

From Stdlib Require Import ZArith String Eqdep_dec.
From Stdlib.Strings Require Import Byte.
From stdpp Require Import base option list.

Local Open Scope Z_scope.

(** ** Outcomes of device code *)

Inductive outcome (A : Type) : Type :=
| Done (a : A)
| AssertionFailure (msg : string)
| Undefined (why : string).

Arguments Done {A} a.
Arguments AssertionFailure {A} msg.
Arguments Undefined {A} why.

#[global] Instance outcome_ret : MRet outcome := fun _ a => Done a.

#[global] Instance outcome_bind : MBind outcome := fun _ _ k m =>
  match m with
  | Done a => k a
  | AssertionFailure msg => AssertionFailure msg
  | Undefined why => Undefined why
  end.

(** Modelled from the spec: [cudf_assert] (cudf/detail/utilities/assert.cuh)
    is a device-side assertion which aborts the thread. *)
Definition cudf_assert_false {A} (msg : string) : outcome A :=
  AssertionFailure msg.

(** [a[i]] on a device span or raw array: reading outside it is undefined. *)
Definition at_index {A} (a : list A) (i : Z) : outcome A :=
  if i <? 0 then Undefined "index out of range"
  else match a !! Z.to_nat i with
       | Some x => Done x
       | None => Undefined "index out of range"
       end.

(** [*o] on a [thrust::optional]: undefined when it holds no value. *)
Definition deref {A} (o : option A) : outcome A :=
  match o with
  | Some x => Done x
  | None => Undefined "dereference of an empty optional"
  end.

(** ** Enumerations of the plan *)

Inductive table_reference := LEFT | RIGHT | OUTPUT.

Inductive device_data_reference_type := COLUMN | LITERAL | INTERMEDIATE.

(** [cudf::null_equality]; in a module of its own because the operator
    enumeration has an [EQUAL] too. *)
Module null_equality.
Inductive t := EQUAL | UNEQUAL.
End null_equality.

#[global] Instance table_reference_eq_dec : EqDecision table_reference.
Proof. solve_decision. Defined.

#[global] Instance device_data_reference_type_eq_dec :
  EqDecision device_data_reference_type.
Proof. solve_decision. Defined.

#[global] Instance null_equality_eq_dec : EqDecision null_equality.t.
Proof. solve_decision. Defined.

(** ** Possibly-null values *)

(** Modelled from the spec: [possibly_null_value_t<T, has_nulls>]
    (cudf/ast/detail/operators.hpp) is [thrust::optional<T>] when
    [has_nulls] holds and plain [T] otherwise. *)
Definition possibly_null_value_t (has_nulls : bool) (T : Type) : Type :=
  if has_nulls then option T else T.

(** [possibly_null_value_t<T, has_nulls>(x)]: construction from a value. *)
Definition present (has_nulls : bool) {T : Type} (x : T) :
  possibly_null_value_t has_nulls T :=
  match has_nulls with
  | true => Some x
  | false => x
  end.

(** ** What the evaluator consumes from the rest of the library *)

(** The closed set of element types and the traits the evaluator asks of
    them.  [has_element_accessor] is
    [column_device_view::has_element_accessor<T>()];
    [is_rep_layout_compatible] is the trait of cudf/utilities/traits.hpp. *)
Class ElementTypes := {
  type_id : Type;
  type_id_eq_dec :: EqDecision type_id;
  Elem : type_id -> Type;
  has_element_accessor : type_id -> bool;
  is_rep_layout_compatible : type_id -> bool;
}.

(** The closed set of operators (cudf/ast/detail/operators.hpp).
    [unary_functor op Input] is [operator_functor<op>] at the operand type
    [Input] together with its result type [Out]; it is [None] exactly when
    [is_valid_unary_op<operator_functor<op>, Input>] is false.  Likewise
    [binary_functor].  [construct_from_bool Out b] is the C++ conversion
    [Out(b)] used where the equality operator builds its result from a
    [bool]. *)
Class Operators `{ElementTypes} := {
  ast_operator : Type;
  ast_operator_eq_dec :: EqDecision ast_operator;
  EQUAL : ast_operator;
  ast_operator_arity : ast_operator -> Z;
  unary_functor : ast_operator -> forall Input : type_id,
      option { Out : type_id & Elem Input -> Elem Out };
  binary_functor : ast_operator -> forall LHS RHS : type_id,
      option { Out : type_id & Elem LHS -> Elem RHS -> Elem Out };
  construct_from_bool : forall Out : type_id, bool -> Elem Out;
}.

(** Object representations, as seen by [memcpy] and [sizeof].
    [sizeof_rep has_nulls T] is [sizeof(possibly_null_value_t<T, has_nulls>)],
    [sizeof_intermediate has_nulls] is [sizeof(IntermediateDataType<has_nulls>)],
    [to_bytes] and [from_bytes] read and write the bytes of an object. *)
Class ObjectRepresentation `{ElementTypes} := {
  sizeof_rep : bool -> type_id -> nat;
  sizeof_intermediate : bool -> nat;
  to_bytes : forall (has_nulls : bool) (T : type_id),
      possibly_null_value_t has_nulls (Elem T) -> list byte;
  from_bytes : forall (has_nulls : bool) (T : type_id),
      list byte -> possibly_null_value_t has_nulls (Elem T);
}.

(** Modelled from the spec: the table and column views of section 6, which
    expose [column(i).element<T>(row)] and [column(i).is_valid(row)]; a
    literal exposes [value<T>()].  The projections carry a prefix because
    the result containers below have [is_valid] and [value] of their own. *)
Record column_device_view `{ElementTypes} := {
  column_element : forall T : type_id, Z -> Elem T;
  column_is_valid : Z -> bool;
}.

Record table_device_view `{ElementTypes} := {
  column : Z -> column_device_view;
}.

Record scalar_device_view `{ElementTypes} := {
  scalar_value : forall T : type_id, Elem T;
}.

(** Modelled from the spec: the mutable column view written by the column
    sink: [element<T>(i) = v], [set_valid(i)] and [set_null(i)]. *)
Class MutableColumn `{ElementTypes} := {
  mutable_column_device_view : Type;
  assign_element : forall T : type_id,
      mutable_column_device_view -> Z -> Elem T -> mutable_column_device_view;
  set_valid : mutable_column_device_view -> Z -> mutable_column_device_view;
  set_null : mutable_column_device_view -> Z -> mutable_column_device_view;
}.

(** ** The plan *)

(** Modelled from the spec: the data reference of section 3
    (cudf/ast/detail/expression_parser.hpp). *)
Record device_data_reference `{ElementTypes} := {
  reference_type : device_data_reference_type;
  data_type : type_id;
  data_index : Z;
  table_source : table_reference;
}.

(** Modelled from the spec: the device view of the plan (section 3). *)
Record expression_device_view `{Operators} := {
  literals : list scalar_device_view;
  data_references : list device_data_reference;
  operators : list ast_operator;
  operator_source_indices : list Z;
}.

(** ** Result containers *)

(** [expression_result<Subclass, T, has_nulls>]: the interface the evaluator
    writes through.  The source enforces it with CRTP; here it is a class
    whose instances are the two containers. *)
Class expression_result `{ElementTypes}
    (Subclass : Type) (T : Type) (has_nulls : bool) := {
  set_value : forall Element : type_id,
      Subclass -> Z -> possibly_null_value_t has_nulls (Elem Element) ->
      outcome Subclass;
  is_valid : Subclass -> outcome bool;
  value : Subclass -> outcome T;
}.

(** [value_expression_result<T, has_nulls>]: the owning scalar container. *)
Module value_expression_result.
Section value_expression_result.
Context `{ElementTypes}.

Record t (T : type_id) (has_nulls : bool) := {
  _obj : possibly_null_value_t has_nulls (Elem T);
}.
Arguments _obj {T has_nulls} _.

Definition set_value {T has_nulls} (Element : type_id)
    (self : t T has_nulls) (index : Z)
    (result : possibly_null_value_t has_nulls (Elem Element))
  : outcome (t T has_nulls) :=
  match decide (Element = T) with
  | left same =>
      Done {| _obj := eq_rect Element
                        (fun E => possibly_null_value_t has_nulls (Elem E))
                        result T same |}
  | right _ =>
      cudf_assert_false "Output type does not match container type."
  end.

Definition is_valid {T has_nulls} : t T has_nulls -> bool :=
  match has_nulls with
  | true => fun self => match _obj self with Some _ => true | None => false end
  | false => fun _ => true
  end.

Definition value {T has_nulls} : t T has_nulls -> outcome (Elem T) :=
  match has_nulls with
  | true => fun self => deref (_obj self)
  | false => fun self => Done (_obj self)
  end.

#[global] Instance value_result (T : type_id) (has_nulls : bool) :
  expression_result (t T has_nulls) (Elem T) has_nulls :=
  Build_expression_result _ _ _ _
    (fun Element => set_value Element)
    (fun self => Done (is_valid self))
    value.
End value_expression_result.
Arguments _obj {_ T has_nulls} _.
End value_expression_result.

(** [mutable_column_expression_result<has_nulls>]: the non-owning container
    over a mutable column view. *)
Module mutable_column_expression_result.
Section mutable_column_expression_result.
Context `{MutableColumn}.

Record t (has_nulls : bool) := {
  _obj : mutable_column_device_view;
}.
Arguments _obj {has_nulls} _.

Definition set_value {has_nulls} (Element : type_id) :
    t has_nulls -> Z -> possibly_null_value_t has_nulls (Elem Element) ->
    t has_nulls :=
  match has_nulls with
  | true => fun self index result =>
      match result with
      | Some v =>
          {| _obj := set_valid (assign_element Element (_obj self) index v)
                               index |}
      | None => {| _obj := set_null (_obj self) index |}
      end
  | false => fun self index result =>
      {| _obj := assign_element Element (_obj self) index result |}
  end.

Definition is_valid {has_nulls} (self : t has_nulls) : outcome bool :=
  cudf_assert_false "This method is not implemented.".

Definition value {has_nulls} (self : t has_nulls)
  : outcome mutable_column_device_view :=
  cudf_assert_false "This method is not implemented.".

#[global] Instance column_result (has_nulls : bool) :
  expression_result (t has_nulls) mutable_column_device_view has_nulls :=
  Build_expression_result _ _ _ _
    (fun Element self index result =>
       Done (set_value Element self index result))
    is_valid
    value.
End mutable_column_expression_result.
Arguments _obj {_ _ has_nulls} _.
End mutable_column_expression_result.

(** ** Intermediate storage and byte copies *)

(** One slot holds the bytes of an [IntermediateDataType<has_nulls>]. *)
Abbreviation intermediate_storage := (list (list byte)).

(** The bytes of an object that has been declared and not yet written.  The
    source never reads them before overwriting; they are taken to be zero. *)
Definition uninitialized (size : nat) : list byte := replicate size x00.

(** [memcpy(&dst, &src, n)] between two objects: the first [n] bytes of
    [dst] become those of [src].  Copying more than either object holds is
    undefined. *)
Definition memcpy (dst src : list byte) (n : nat) : outcome (list byte) :=
  if decide (n <= length src /\ n <= length dst)%nat
  then Done (take n src ++ drop n dst)
  else Undefined "memcpy past the end of an object".

(** [storage[i] = x] through the raw pointer. *)
Definition store (storage : intermediate_storage) (i : Z) (x : list byte)
  : outcome intermediate_storage :=
  if decide (0 <= i /\ (Z.to_nat i < length storage)%nat)
  then Done (<[Z.to_nat i := x]> storage)
  else Undefined "index out of range".

(** ** The evaluator *)

Section expression_evaluator.
Context `{Operators} `{!ObjectRepresentation}.

(** The members of [expression_evaluator<has_nulls>] other than the
    scratch pointer.  The source calls the tables [left] and [right];
    those names are the constructors of [sumbool] here. *)
Record expression_evaluator := {
  left_table : table_device_view;
  right_table : table_device_view;
  plan : expression_device_view;
  compare_nulls : null_equality.t;
}.

(** The constructor acting on two tables. *)
Definition make_evaluator (left right : table_device_view)
    (plan : expression_device_view) (compare_nulls : null_equality.t)
  : expression_evaluator :=
  {| left_table := left; right_table := right; plan := plan;
     compare_nulls := compare_nulls |}.

(** The constructor acting on one table. *)
Definition make_evaluator_one_table (table : table_device_view)
    (plan : expression_device_view) (compare_nulls : null_equality.t)
  : expression_evaluator :=
  {| left_table := table; right_table := table; plan := plan;
     compare_nulls := compare_nulls |}.

(** [resolve_input<Element>], both overloads: the first branch is the one
    enabled by [has_element_accessor<Element>()]. *)
Definition resolve_input (has_nulls : bool) (ev : expression_evaluator)
    (thread_intermediate_storage : intermediate_storage)
    (Element : type_id) (device_data_reference : device_data_reference)
    (left_row_index : Z) (right_row_index : option Z)
  : outcome (possibly_null_value_t has_nulls (Elem Element)) :=
  if has_element_accessor Element then
    let data_index := data_index device_data_reference in
    let ref_type := reference_type device_data_reference in
    match ref_type with
    | COLUMN =>
        let table :=
          if decide (table_source device_data_reference = LEFT)
          then left_table ev else right_table ev in
        row_index ←
          (if decide (table_source device_data_reference = LEFT)
           then Done left_row_index
           else deref right_row_index);
        match has_nulls as b
              return outcome (possibly_null_value_t b (Elem Element)) with
        | true =>
            Done (if column_is_valid (column table data_index) row_index
                  then Some (column_element (column table data_index)
                                            Element row_index)
                  else None)
        | false =>
            Done (column_element (column table data_index)
                                 Element row_index)
        end
    | LITERAL =>
        literal ← at_index (literals (plan ev)) data_index;
        Done (present has_nulls (scalar_value literal Element))
    | INTERMEDIATE =>
        intermediate ← at_index thread_intermediate_storage data_index;
        tmp ← memcpy (uninitialized (sizeof_rep has_nulls Element))
                     intermediate (sizeof_rep has_nulls Element);
        Done (from_bytes has_nulls Element tmp)
    end
  else cudf_assert_false "Unsupported type in resolve_input.".

Section handlers.
Context {has_nulls : bool} {OutputType T : Type}
        `{!expression_result OutputType T has_nulls}.

(** [expression_output_handler::resolve_output<Element>], both
    overloads: the first branch is the one enabled by
    [is_rep_layout_compatible<Element>()].  Any reference that is not a
    [COLUMN] is taken to be an [INTERMEDIATE]. *)
Definition resolve_output (Element : type_id)
    (output_object : OutputType)
    (thread_intermediate_storage : intermediate_storage)
    (device_data_reference : device_data_reference) (row_index : Z)
    (result : possibly_null_value_t has_nulls (Elem Element))
  : outcome (OutputType * intermediate_storage) :=
  if is_rep_layout_compatible Element then
    let ref_type := reference_type device_data_reference in
    match ref_type with
    | COLUMN =>
        output_object ← set_value Element output_object row_index result;
        Done (output_object, thread_intermediate_storage)
    | _ =>
        tmp ← memcpy (uninitialized (sizeof_intermediate has_nulls))
                     (to_bytes has_nulls Element result)
                     (sizeof_rep has_nulls Element);
        storage ← store thread_intermediate_storage
                        (data_index device_data_reference) tmp;
        Done (output_object, storage)
    end
  else cudf_assert_false "Invalid type in resolve_output.".

(** [unary_expression_output_handler<Input>::operator()<op>], both
    overloads: the first is the one enabled by [is_valid_unary_op].
    The two [if constexpr] branches end in the same call of
    [resolve_output]; only the result they pass differs. *)
Definition unary_expression_output_handler (Input : type_id)
    (op : ast_operator) (output_object : OutputType)
    (thread_intermediate_storage : intermediate_storage)
    (output_row_index : Z)
    (input : possibly_null_value_t has_nulls (Elem Input))
    (output : device_data_reference)
  : outcome (OutputType * intermediate_storage) :=
  match unary_functor op Input with
  | Some (existT Out OperatorFunctor) =>
      let result :=
        match has_nulls as b
              return possibly_null_value_t b (Elem Input) ->
                     possibly_null_value_t b (Elem Out) with
        | true => fun input =>
            match input with
            | Some x => Some (OperatorFunctor x)
            | None => None
            end
        | false => fun input => OperatorFunctor input
        end input in
      resolve_output Out output_object thread_intermediate_storage
                     output output_row_index result
  | None =>
      cudf_assert_false
        "Invalid unary dispatch operator for the provided input."
  end.

(** [binary_expression_output_handler<LHS, RHS>::operator()<op>], both
    overloads: the first is the one enabled by [is_valid_binary_op]. *)
Definition binary_expression_output_handler (ev : expression_evaluator)
    (LHS RHS : type_id) (op : ast_operator) (output_object : OutputType)
    (thread_intermediate_storage : intermediate_storage)
    (output_row_index : Z)
    (lhs : possibly_null_value_t has_nulls (Elem LHS))
    (rhs : possibly_null_value_t has_nulls (Elem RHS))
    (output : device_data_reference)
  : outcome (OutputType * intermediate_storage) :=
  match binary_functor op LHS RHS with
  | Some (existT Out OperatorFunctor) =>
      let result :=
        match has_nulls as b
              return possibly_null_value_t b (Elem LHS) ->
                     possibly_null_value_t b (Elem RHS) ->
                     possibly_null_value_t b (Elem Out) with
        | true => fun lhs rhs =>
            if decide (op = EQUAL) then
              match lhs, rhs with
              | None, None =>
                  Some (construct_from_bool Out
                          (bool_decide
                             (compare_nulls ev = null_equality.EQUAL)))
              | Some l, Some r => Some (OperatorFunctor l r)
              | _, _ => None
              end
            else
              match lhs, rhs with
              | Some l, Some r => Some (OperatorFunctor l r)
              | _, _ => None
              end
        | false => fun lhs rhs => OperatorFunctor lhs rhs
        end lhs rhs in
      resolve_output Out output_object thread_intermediate_storage
                     output output_row_index result
  | None =>
      cudf_assert_false
        "Invalid binary dispatch operator for the provided input."
  end.

(** [expression_evaluator::operator()<Input>]: one unary operation.
    [resolve_input] is called with two arguments, so its
    [right_row_index] is the default, empty optional. *)
Definition call_unary (ev : expression_evaluator) (Input : type_id)
    (output_object : OutputType)
    (thread_intermediate_storage : intermediate_storage)
    (input_row_index : Z) (input output : device_data_reference)
    (output_row_index : Z) (op : ast_operator)
  : outcome (OutputType * intermediate_storage) :=
  typed_input ← resolve_input has_nulls ev thread_intermediate_storage
                              Input input input_row_index None;
  unary_expression_output_handler Input op output_object
    thread_intermediate_storage output_row_index typed_input output.

(** [expression_evaluator::operator()<LHS, RHS>]: one binary
    operation. *)
Definition call_binary (ev : expression_evaluator) (LHS RHS : type_id)
    (output_object : OutputType)
    (thread_intermediate_storage : intermediate_storage)
    (left_row_index right_row_index : Z)
    (lhs rhs output : device_data_reference)
    (output_row_index : Z) (op : ast_operator)
  : outcome (OutputType * intermediate_storage) :=
  typed_lhs ← resolve_input has_nulls ev thread_intermediate_storage
                            LHS lhs left_row_index (Some right_row_index);
  typed_rhs ← resolve_input has_nulls ev thread_intermediate_storage
                            RHS rhs left_row_index (Some right_row_index);
  binary_expression_output_handler ev LHS RHS op output_object
    thread_intermediate_storage output_row_index typed_lhs typed_rhs
    output.

(** [single_dispatch_binary_operator::operator()<LHS>]: forwards to [f]
    instantiated at [<LHS, LHS>]. *)
Definition single_dispatch_binary_operator {R : Type} (LHS : type_id)
    (f : type_id -> type_id -> R) : R :=
  f LHS LHS.

(** [plan.data_references[plan.operator_source_indices[i]]]. *)
Definition operand (ev : expression_evaluator) (i : Z)
  : outcome device_data_reference :=
  source ← at_index (operator_source_indices (plan ev)) i;
  at_index (data_references (plan ev)) source.

(** The body of the loop of [evaluate]: executes the operator [op] with
    the cursor [operator_source_index] into the operand-index stream and
    returns the advanced cursor with the updated memory.
    [type_dispatcher(id, f, args...)] calls [f] instantiated at the
    element type of [id]. *)
Definition evaluate_operator (ev : expression_evaluator)
    (op : ast_operator) (operator_source_index : Z)
    (output_object : OutputType)
    (thread_intermediate_storage : intermediate_storage)
    (left_row_index right_row_index output_row_index : Z)
  : outcome (Z * (OutputType * intermediate_storage)) :=
  let arity := ast_operator_arity op in
  let operand := operand ev in
  if decide (arity = 1) then
    input ← operand operator_source_index;
    output ← operand (operator_source_index + 1);
    let input_row_index :=
      if decide (table_source input = LEFT)
      then left_row_index else right_row_index in
    memory ← call_unary ev (data_type input) output_object
               thread_intermediate_storage input_row_index input output
               output_row_index op;
    Done (operator_source_index + 2, memory)
  else if decide (arity = 2) then
    lhs ← operand operator_source_index;
    rhs ← operand (operator_source_index + 1);
    output ← operand (operator_source_index + 2);
    memory ← single_dispatch_binary_operator (data_type lhs)
               (fun LHS RHS =>
                  call_binary ev LHS RHS output_object
                    thread_intermediate_storage left_row_index
                    right_row_index lhs rhs output output_row_index op);
    Done (operator_source_index + 3, memory)
  else cudf_assert_false "Invalid operator arity.".

(** The loop of [evaluate] over the operators that remain. *)
Fixpoint evaluate_operators (ev : expression_evaluator)
    (remaining : list ast_operator) (operator_source_index : Z)
    (output_object : OutputType)
    (thread_intermediate_storage : intermediate_storage)
    (left_row_index right_row_index output_row_index : Z)
  : outcome (OutputType * intermediate_storage) :=
  match remaining with
  | [] => Done (output_object, thread_intermediate_storage)
  | op :: remaining =>
      '(operator_source_index, (output_object, storage)) ←
        evaluate_operator ev op operator_source_index output_object
          thread_intermediate_storage left_row_index right_row_index
          output_row_index;
      evaluate_operators ev remaining operator_source_index
        output_object storage left_row_index right_row_index
        output_row_index
  end.

(** [evaluate(output_object, left_row_index, right_row_index,
    output_row_index)]. *)
Definition evaluate (ev : expression_evaluator)
    (output_object : OutputType)
    (thread_intermediate_storage : intermediate_storage)
    (left_row_index right_row_index output_row_index : Z)
  : outcome (OutputType * intermediate_storage) :=
  evaluate_operators ev (operators (plan ev)) 0 output_object
    thread_intermediate_storage left_row_index right_row_index
    output_row_index.

(** [evaluate(output_object, row_index)]. *)
Definition evaluate_row (ev : expression_evaluator)
    (output_object : OutputType)
    (thread_intermediate_storage : intermediate_storage)
    (row_index : Z)
  : outcome (OutputType * intermediate_storage) :=
  evaluate ev output_object thread_intermediate_storage
           row_index row_index row_index.
End handlers.
End expression_evaluator.

(** ** The operand-index stream

    The number of stream entries a list of operators consumes: for each
    operator its inputs and one output. *)

Definition operand_stream_length `{Operators} (ops : list ast_operator) : Z :=
  foldr (fun op rest => ast_operator_arity op + 1 + rest) 0 ops.

(** ** The footprint of one write

    What [resolve_output] through the reference [output] may change between
    the memory [before] and the memory [after]: through a [COLUMN] reference
    the intermediate storage stays as it was; through any other reference
    the output object stays as it was, the storage keeps its number of slots
    and every slot other than [data_index output] keeps its bytes. *)

Definition written_through `{ElementTypes} {OutputType : Type}
    (output : device_data_reference)
    (before after : OutputType * intermediate_storage) : Prop :=
  if decide (reference_type output = COLUMN) then after.2 = before.2
  else after.1 = before.1
       /\ length after.2 = length before.2
       /\ forall i : Z, 0 <= i -> i <> data_index output ->
                       at_index after.2 i = at_index before.2 i.

(** ** Intermediates written before they are read

    [reads_written ev ops cursor written] holds when, running [ops] from
    [cursor], every [INTERMEDIATE] input names a slot that is in [written]
    or that an earlier operator of [ops] wrote.  References the stream does
    not reach are no concern: evaluation stops there. *)

Definition intermediate_ready `{ElementTypes} (written : list Z)
    (reference : outcome device_data_reference) : bool :=
  match reference with
  | Done input =>
      if decide (reference_type input = INTERMEDIATE)
      then bool_decide (data_index input ∈ written)
      else true
  | _ => true
  end.

Fixpoint reads_written `{Operators} (ev : expression_evaluator)
    (ops : list ast_operator) (cursor : Z) (written : list Z) : bool :=
  match ops with
  | [] => true
  | op :: ops =>
      let arity := ast_operator_arity op in
      (if decide (arity = 1) then
         intermediate_ready written (operand ev cursor)
       else if decide (arity = 2) then
         intermediate_ready written (operand ev cursor)
         && intermediate_ready written (operand ev (cursor + 1))
       else true)
      && match operand ev (cursor + arity) with
         | Done output =>
             reads_written ev ops (cursor + arity + 1)
               (if decide (reference_type output = COLUMN) then written
                else data_index output :: written)
         | _ => true
         end
  end.

(** Two storages that agree on the slots [written]. *)
Definition agree_on (written : list Z) (storage1 storage2 : intermediate_storage)
  : Prop :=
  length storage1 = length storage2
  /\ forall i : Z, i ∈ written -> at_index storage1 i = at_index storage2 i.

(** Two runs that end alike: the same failure, or the same output object
    with storages that agree on [written]. *)
Definition memory_alike {OutputType : Type} (written : list Z)
    (run1 run2 : outcome (OutputType * intermediate_storage)) : Prop :=
  match run1, run2 with
  | Done (object1, storage1), Done (object2, storage2) =>
      object1 = object2 /\ agree_on written storage1 storage2
  | AssertionFailure msg1, AssertionFailure msg2 => msg1 = msg2
  | Undefined why1, Undefined why2 => why1 = why2
  | _, _ => False
  end.

(** ** Editing a data reference

    Used to state what the resolver does and does not look at. *)

Definition with_table_source `{ElementTypes}
    (reference : device_data_reference) (source : table_reference)
  : device_data_reference :=
  {| reference_type := reference_type reference;
     data_type := data_type reference;
     data_index := data_index reference;
     table_source := source |}.

Definition with_data_type `{ElementTypes}
    (reference : device_data_reference) (T : type_id)
  : device_data_reference :=
  {| reference_type := reference_type reference;
     data_type := T;
     data_index := data_index reference;
     table_source := table_source reference |}.

(** ** Tables that differ in their null masks only *)

Definition same_elements `{ElementTypes} (t1 t2 : table_device_view) : Prop :=
  forall (i : Z) (T : type_id) (row : Z),
    column_element (column t1 i) T row = column_element (column t2 i) T row.

(** ** A concrete instance

    A small closed set of element types and operators on which the plan
    scenarios of the specification can be run.  Integers are [Z] with their
    two's-complement wrap-around written out; objects are laid out
    little-endian, an optional as the value, the engaged flag and padding up
    to the alignment of the value. *)
Module Demo.

Inductive type_id := INT32 | INT64 | BOOL8 | STRING.

#[export] Instance type_id_eq_dec : EqDecision type_id.
Proof. solve_decision. Defined.

Definition Elem (T : type_id) : Type :=
  match T with
  | INT32 | INT64 => Z
  | BOOL8 => bool
  | STRING => string
  end.

Definition sizeof (T : type_id) : nat :=
  match T with
  | INT32 => 4
  | INT64 => 8
  | BOOL8 => 1
  | STRING => 16
  end.

Definition has_element_accessor (T : type_id) : bool := true.

Definition is_rep_layout_compatible (T : type_id) : bool :=
  match T with
  | STRING => false
  | _ => true
  end.

#[export] Instance element_types : ElementTypes :=
  Build_ElementTypes type_id _ Elem has_element_accessor
                     is_rep_layout_compatible.

(** *** Fixed-width integers *)

(** The signed [w]-bit integer with the same low [w] bits as [z]. *)
Definition wrap (w : Z) (z : Z) : Z :=
  let u := z mod 2 ^ w in
  if u <? 2 ^ (w - 1) then u else u - 2 ^ w.

Definition byte_of_Z (z : Z) : byte :=
  default x00 (Byte.of_N (Z.to_N (z mod 256))).

Fixpoint le_bytes (size : nat) (z : Z) : list byte :=
  match size with
  | O => []
  | S size => byte_of_Z z :: le_bytes size (z / 256)
  end.

Fixpoint le_value (bytes : list byte) : Z :=
  match bytes with
  | [] => 0
  | b :: bytes => Z.of_N (Byte.to_N b) + 256 * le_value bytes
  end.

(** *** Object representations *)

Definition value_bytes (T : type_id) : Elem T -> list byte :=
  match T with
  | INT32 => fun z => le_bytes 4 z
  | INT64 => fun z => le_bytes 8 z
  | BOOL8 => fun b => [if b then x01 else x00]
  | STRING => fun _ => uninitialized 16
  end.

Definition value_of_bytes (T : type_id) : list byte -> Elem T :=
  match T with
  | INT32 => fun bytes => wrap 32 (le_value (take 4 bytes))
  | INT64 => fun bytes => wrap 64 (le_value (take 8 bytes))
  | BOOL8 => fun bytes => negb (le_value (take 1 bytes) =? 0)
  | STRING => fun _ => EmptyString
  end.

(** The alignment of every element type here is 8 at most, and its size
    otherwise. *)
Definition alignof (T : type_id) : nat := Nat.min (sizeof T) 8.

Definition sizeof_rep (has_nulls : bool) (T : type_id) : nat :=
  if has_nulls then sizeof T + alignof T else sizeof T.

Definition sizeof_intermediate (has_nulls : bool) : nat :=
  sizeof_rep has_nulls INT64.

Definition to_bytes (has_nulls : bool) (T : type_id)
  : possibly_null_value_t has_nulls (Elem T) -> list byte :=
  match has_nulls with
  | true => fun v =>
      match v with
      | Some x => value_bytes T x ++ x01 :: uninitialized (alignof T - 1)
      | None => uninitialized (sizeof T + alignof T)
      end
  | false => fun x => value_bytes T x
  end.

Definition from_bytes (has_nulls : bool) (T : type_id)
  : list byte -> possibly_null_value_t has_nulls (Elem T) :=
  match has_nulls with
  | true => fun bytes =>
      if le_value (take 1 (drop (sizeof T) bytes)) =? 0 then None
      else Some (value_of_bytes T bytes)
  | false => fun bytes => value_of_bytes T bytes
  end.

#[export] Instance object_representation : ObjectRepresentation :=
  Build_ObjectRepresentation _ sizeof_rep sizeof_intermediate
                             to_bytes from_bytes.

(** *** Operators *)

Inductive ast_operator :=
| IDENTITY | NOT
| ADD | SUB | MUL | EQUAL | LESS.

#[export] Instance ast_operator_eq_dec : EqDecision ast_operator.
Proof. solve_decision. Defined.

Definition ast_operator_arity (op : ast_operator) : Z :=
  match op with
  | IDENTITY | NOT => 1
  | ADD | SUB | MUL | EQUAL | LESS => 2
  end.

Definition unary_functor (op : ast_operator) (Input : type_id)
  : option { Out : type_id & Elem Input -> Elem Out } :=
  match op, Input with
  | IDENTITY, _ => Some (existT Input (fun x => x))
  | NOT, BOOL8 => Some (existT BOOL8 negb)
  | _, _ => None
  end.

Definition arithmetic (f : Z -> Z -> Z) (LHS RHS : type_id)
  : option { Out : type_id & Elem LHS -> Elem RHS -> Elem Out } :=
  match LHS, RHS with
  | INT32, INT32 => Some (existT INT32 (fun x y => wrap 32 (f x y)))
  | INT64, INT64 => Some (existT INT64 (fun x y => wrap 64 (f x y)))
  | _, _ => None
  end.

Definition binary_functor (op : ast_operator) (LHS RHS : type_id)
  : option { Out : type_id & Elem LHS -> Elem RHS -> Elem Out } :=
  match op with
  | ADD => arithmetic Z.add LHS RHS
  | SUB => arithmetic Z.sub LHS RHS
  | MUL => arithmetic Z.mul LHS RHS
  | EQUAL =>
      match LHS, RHS with
      | INT32, INT32 | INT64, INT64 => Some (existT BOOL8 Z.eqb)
      | BOOL8, BOOL8 => Some (existT BOOL8 Bool.eqb)
      | STRING, STRING => Some (existT BOOL8 String.eqb)
      | _, _ => None
      end
  | LESS =>
      match LHS, RHS with
      | INT32, INT32 | INT64, INT64 => Some (existT BOOL8 Z.ltb)
      | _, _ => None
      end
  | IDENTITY | NOT => None
  end.

Definition construct_from_bool (Out : type_id) : bool -> Elem Out :=
  match Out with
  | INT32 | INT64 => Z.b2z
  | BOOL8 => fun b => b
  | STRING => fun _ => EmptyString
  end.

#[export] Instance demo_operators : Operators :=
  Build_Operators _ ast_operator _ EQUAL ast_operator_arity
                  unary_functor binary_functor construct_from_bool.

(** *** Tables, literals and output columns *)

(** A column of raw payloads with a null mask; [element<T>] reinterprets
    the payload at the element type asked for. *)
Definition column_of (payload : list Z) (mask : list bool)
  : column_device_view :=
  {| column_element := fun T row =>
       value_of_bytes T (le_bytes 8 (default 0 (payload !! Z.to_nat row)));
     column_is_valid := fun row => default true (mask !! Z.to_nat row) |}.

Definition table_of (columns : list column_device_view)
  : table_device_view :=
  {| column := fun i => default (column_of [] []) (columns !! Z.to_nat i) |}.

Definition literal_of (payload : Z) : scalar_device_view :=
  {| scalar_value := fun T => value_of_bytes T (le_bytes 8 payload) |}.

(** An output column: one typed cell and one validity bit per row. *)
Record output_column := {
  cells : list { T : type_id & Elem T };
  validity : list bool;
}.

#[export] Instance mutable_column : MutableColumn :=
  Build_MutableColumn _ output_column
    (fun T self index v =>
       {| cells := <[Z.to_nat index := existT T v]> (cells self);
          validity := validity self |})
    (fun self index =>
       {| cells := cells self;
          validity := <[Z.to_nat index := true]> (validity self) |})
    (fun self index =>
       {| cells := cells self;
          validity := <[Z.to_nat index := false]> (validity self) |}).

Definition empty_output (rows : nat) : output_column :=
  {| cells := replicate rows (existT BOOL8 false : { T : type_id & Elem T });
     validity := replicate rows false |}.

Definition column_ref (T : type_id) (index : Z) (source : table_reference)
  : device_data_reference :=
  {| reference_type := COLUMN; data_type := T; data_index := index;
     table_source := source |}.

Definition literal_ref (T : type_id) (index : Z) : device_data_reference :=
  {| reference_type := LITERAL; data_type := T; data_index := index;
     table_source := LEFT |}.

Definition intermediate_ref (T : type_id) (index : Z)
  : device_data_reference :=
  {| reference_type := INTERMEDIATE; data_type := T; data_index := index;
     table_source := LEFT |}.

(** Scratch of [slots] slots for one thread. *)
Definition scratch (has_nulls : bool) (slots : nat) : intermediate_storage :=
  replicate slots (uninitialized (sizeof_intermediate has_nulls)).

(** One thread per row, rows [0 .. rows-1], writing a column. *)
Fixpoint evaluate_rows (has_nulls : bool) (ev : expression_evaluator)
    (slots : nat) (rows : list Z)
    (out : mutable_column_expression_result.t has_nulls)
  : outcome (mutable_column_expression_result.t has_nulls) :=
  match rows with
  | [] => Done out
  | row :: rows =>
      '(out, _) ← evaluate_row ev out (scratch has_nulls slots) row;
      evaluate_rows has_nulls ev slots rows out
  end.

Definition run (has_nulls : bool) (ev : expression_evaluator)
    (slots : nat) (rows : nat)
  : outcome (list (option { T : type_id & Elem T })) :=
  out ← evaluate_rows has_nulls ev slots (Z.of_nat <$> seq 0 rows)
        (@mutable_column_expression_result.Build_t _ _ has_nulls
           (empty_output rows));
  let column := mutable_column_expression_result._obj out in
  Done (zip_with (fun cell valid => if valid : bool then Some cell else None)
                 (cells column)
                 (if has_nulls then validity column
                  else replicate rows true)).

Definition int32 (z : Z) : { T : type_id & Elem T } := existT INT32 z.
Definition bool8 (b : bool) : { T : type_id & Elem T } := existT BOOL8 b.

(** *** The scenarios of section 8 of the specification *)

Definition one_binary_plan (op : ast_operator) (lhs rhs : device_data_reference)
    (Out : type_id) (literals : list scalar_device_view)
  : expression_device_view :=
  {| literals := literals;
     data_references := [lhs; rhs; column_ref Out 0 OUTPUT];
     operators := [op];
     operator_source_indices := [0; 1; 2] |}.

Definition one_unary_plan (op : ast_operator) (input : device_data_reference)
    (Out : type_id) : expression_device_view :=
  {| literals := [];
     data_references := [input; column_ref Out 0 OUTPUT];
     operators := [op];
     operator_source_indices := [0; 1] |}.

(** [t0 = a + b], [t1 = t0 * c], [out = t1 - d] over one table. *)
Definition chained_plan : expression_device_view :=
  {| literals := [];
     data_references :=
       [column_ref INT32 0 LEFT; column_ref INT32 1 LEFT;
        column_ref INT32 2 LEFT; column_ref INT32 3 LEFT;
        intermediate_ref INT32 0; intermediate_ref INT32 1;
        column_ref INT32 0 OUTPUT];
     operators := [ADD; MUL; SUB];
     operator_source_indices := [0; 1; 4;  4; 2; 5;  5; 3; 6] |}.

Definition all_valid (payload : list Z) : column_device_view :=
  column_of payload [].

Definition table_a : table_device_view :=
  table_of [all_valid [1; 2; 3]].

Definition table_a_b_null : table_device_view :=
  table_of [column_of [1; 0; 3] [true; false; true];
            column_of [1; 0; 4] [true; false; true]].

Definition table_x : table_device_view := table_of [all_valid [10; 20; 30]].
Definition table_y : table_device_view := table_of [all_valid [1; 2; 3]].

Definition table_a_b_c_d : table_device_view :=
  table_of [all_valid [1; 1]; all_valid [2; 3];
            all_valid [4; 5]; all_valid [6; 7]].

(** [table_y] with every row marked null. *)
Definition table_y_masked : table_device_view :=
  table_of [column_of [1; 2; 3] [false; false; false]].

(** [out = L.x - R.y] over [table_x] and a right table. *)
Definition x_minus_y (right : table_device_view) : expression_evaluator :=
  make_evaluator table_x right
    (one_binary_plan SUB (column_ref INT32 0 LEFT)
       (column_ref INT32 0 RIGHT) INT32 [])
    null_equality.EQUAL.

Abbreviation scalar_result T has_nulls :=
  (@value_expression_result.t element_types T has_nulls).

Definition scalar_sink (T : type_id) (has_nulls : bool)
    (initial : possibly_null_value_t has_nulls (Elem T))
  : scalar_result T has_nulls :=
  value_expression_result.Build_t T has_nulls initial.

(** [t0 = 2 + 3] over two literals: a plan without a [COLUMN] reference. *)
Definition literal_sum_plan : expression_device_view :=
  {| literals := [literal_of 2; literal_of 3];
     data_references :=
       [literal_ref INT32 0; literal_ref INT32 1; intermediate_ref INT32 0];
     operators := [ADD];
     operator_source_indices := [0; 1; 2] |}.

(** The three-operator plan and the literal plan over one table. *)
Definition chained : expression_evaluator :=
  make_evaluator_one_table table_a_b_c_d chained_plan null_equality.EQUAL.

Definition literal_sum : expression_evaluator :=
  make_evaluator_one_table table_a literal_sum_plan null_equality.EQUAL.

(** A nullable [INT32] scalar container that holds no value yet. *)
Definition unset : scalar_result INT32 true := scalar_sink INT32 true None.

(** The slot that holds [v] after [resolve_output] has written it. *)
Definition slot_of (has_nulls : bool) (T : type_id)
    (v : possibly_null_value_t has_nulls (Elem T)) : list byte :=
  to_bytes has_nulls T v
  ++ drop (sizeof_rep has_nulls T)
          (uninitialized (sizeof_intermediate has_nulls)).
End Demo.

(** * Device operators and hashing helpers

    The binary operators of cudf/detail/utilities/device_operators.cuh at
    the integer element types, and [remap_sentinel_hash] of
    join/join_kernels.cuh. *)

(** An integer type: its width in bits and its signedness. *)
Record integral := {
  bits : Z;
  is_signed : bool;
}.

(** [std::numeric_limits<T>::lowest()] and [std::numeric_limits<T>::max()]. *)
Definition numeric_limits_lowest (T : integral) : Z :=
  if is_signed T then - 2 ^ (bits T - 1) else 0.

Definition numeric_limits_max (T : integral) : Z :=
  if is_signed T then 2 ^ (bits T - 1) - 1 else 2 ^ bits T - 1.

Definition representable (T : integral) (z : Z) : Prop :=
  numeric_limits_lowest T <= z <= numeric_limits_max T.

(** Conversion of an integer to [T]: the value of [T] congruent to it
    modulo [2 ^ bits]. *)
Definition convert (T : integral) (z : Z) : Z :=
  let u := z mod 2 ^ bits T in
  if is_signed T && (2 ^ (bits T - 1) <=? u) then u - 2 ^ bits T else u.

(** [int]. *)
Definition int : integral := {| bits := 32; is_signed := true |}.

(** [int8_t], [uint16_t], [uint32_t] and [int64_t]. *)
Definition int8_t : integral := {| bits := 8; is_signed := true |}.
Definition uint16_t : integral := {| bits := 16; is_signed := false |}.
Definition uint32_t : integral := {| bits := 32; is_signed := false |}.
Definition int64_t : integral := {| bits := 64; is_signed := true |}.

(** The result of an arithmetic expression on two operands of type [T]
    whose mathematical value is [r], returned as a [T].  Operands narrower
    than [int] are promoted to [int] and the result is converted back;
    overflow of a signed computation is undefined; an unsigned computation
    wraps. *)
Definition arithmetic (T : integral) (r : Z) : outcome Z :=
  if bits T <? bits int then
    if decide (representable int r) then Done (convert T r)
    else Undefined "signed integer overflow"
  else if is_signed T then
    if decide (representable T r) then Done r
    else Undefined "signed integer overflow"
  else Done (r mod 2 ^ bits T).

(** [std::min(a, b)] is [(b < a) ? b : a]; [std::max(a, b)] is
    [(a < b) ? b : a]. *)
Definition std_min (a b : Z) : Z := if b <? a then b else a.
Definition std_max (a b : Z) : Z := if a <? b then b else a.

(** [DeviceSum]: [lhs + rhs], with identity [T{0}]. *)
Module DeviceSum.
Definition call (T : integral) (lhs rhs : Z) : outcome Z :=
  arithmetic T (lhs + rhs).
Definition identity (T : integral) : Z := 0.
End DeviceSum.

(** [DeviceCount]: [rhs + T{1}], whatever [lhs]; identity [T{}]. *)
Module DeviceCount.
Definition call (T : integral) (lhs rhs : Z) : outcome Z :=
  arithmetic T (rhs + 1).
Definition identity (T : integral) : Z := 0.
End DeviceCount.

(** [DeviceMin]: [std::min(lhs, rhs)], with identity
    [std::numeric_limits<T>::max()]. *)
Module DeviceMin.
Definition call (T : integral) (lhs rhs : Z) : Z := std_min lhs rhs.
Definition identity (T : integral) : Z := numeric_limits_max T.
End DeviceMin.

(** [DeviceMax]: [std::max(lhs, rhs)], with identity
    [std::numeric_limits<T>::lowest()]. *)
Module DeviceMax.
Definition call (T : integral) (lhs rhs : Z) : Z := std_max lhs rhs.
Definition identity (T : integral) : Z := numeric_limits_lowest T.
End DeviceMax.

(** [DeviceProduct]: [lhs * rhs], with identity [T{1}]. *)
Module DeviceProduct.
Definition call (T : integral) (lhs rhs : Z) : outcome Z :=
  arithmetic T (lhs * rhs).
Definition identity (T : integral) : Z := 1.
End DeviceProduct.

(** A running value threaded through an operator as its right operand, one
    call per item, as a window or a scan does. *)
Definition accumulate (op : Z -> Z -> outcome Z) (initial : Z)
    (items : list Z) : outcome Z :=
  foldl (fun running item => running ≫= op item) (Done initial) items.

(** Integer promotion: a type narrower than [int] becomes [int]. *)
Definition promote (T : integral) : integral :=
  if bits T <? bits int then int else T.

(** The usual arithmetic conversions: the type in which a binary operator
    computes on operands of types [A] and [B].  After promotion, two types
    of one signedness give the wider; otherwise the unsigned type wins
    unless the signed type is wider and so holds all its values. *)
Definition common_type (A B : integral) : integral :=
  let A' := promote A in
  let B' := promote B in
  if Bool.eqb (is_signed A') (is_signed B') then
    if bits A' <? bits B' then B' else A'
  else
    let unsigned_one := if is_signed A' then B' else A' in
    let signed_one := if is_signed A' then A' else B' in
    if bits signed_one <=? bits unsigned_one then unsigned_one
    else signed_one.

(** [remap_sentinel_hash<H, S>(hash, sentinel)]:
    [(hash == sentinel) ? (hash - 1) : hash].  The comparison is made in the
    common type of [H] and [S]; [hash - 1] is computed, and the result
    returned, in the common type of [H] and [int] (the return type is
    [auto]). *)
Definition remap_sentinel_hash (H S : integral) (hash sentinel : Z)
  : outcome Z :=
  let compared := common_type H S in
  let returned := common_type H int in
  if convert compared hash =? convert compared sentinel
  then arithmetic returned (hash - 1)
  else Done hash.

(** * Properties *)

(** ** The scalar container *)

Section value_expression_result_properties.
Context `{ElementTypes}.

Lemma decide_type_id_refl (T : type_id) : decide (T = T) = left eq_refl.
Proof.
  destruct (decide (T = T)) as [same | different]; [| done].
  f_equal. apply UIP_dec. intros x y. apply (decide (x = y)).
Qed.

Lemma set_value_matching (T : type_id) (has_nulls : bool)
    (self : value_expression_result.t T has_nulls) (index : Z)
    (v : possibly_null_value_t has_nulls (Elem T)) :
  value_expression_result.set_value T self index v
  = Done (value_expression_result.Build_t T has_nulls v).
Proof.
  unfold value_expression_result.set_value.
  by rewrite decide_type_id_refl.
Qed.

(** C7: on the scalar container with the matching element type,
    [set_value(i, v)] stores [v] whatever the index (so any two indices
    leave the same state); afterwards [is_valid()] is the validity of [v]
    and, when [v] is valid, [value()] is its value. *)
Theorem scalar_sink_stores_value (T : type_id) :
  (forall has_nulls (self : value_expression_result.t T has_nulls) i j v,
      value_expression_result.set_value T self i v
      = Done (value_expression_result.Build_t T has_nulls v)
      /\ value_expression_result.set_value T self i v
         = value_expression_result.set_value T self j v)
  /\ (forall x : Elem T,
         let stored := value_expression_result.Build_t T true (Some x) in
         value_expression_result.is_valid stored = true
         /\ value_expression_result.value stored = Done x)
  /\ value_expression_result.is_valid
       (value_expression_result.Build_t T true None) = false
  /\ (forall x : Elem T,
         let stored := value_expression_result.Build_t T false x in
         value_expression_result.is_valid stored = true
         /\ value_expression_result.value stored = Done x).
Proof.
  split; [| by repeat split].
  intros has_nulls self i j v. by rewrite !set_value_matching.
Qed.
End value_expression_result_properties.

(** ** Operators and nulls *)

Section null_semantics.
Context `{Operators} `{!ObjectRepresentation}.
Context {OutputType T : Type} `{!expression_result OutputType T true}.

(** C1: with [has_nulls = true], the equality operator follows the
    null-equality policy of the evaluator: two absent operands give a
    present result whose value is [policy = EQUAL]; exactly one absent
    operand gives an absent result; two present operands give the present
    result of the operator on them. *)
Theorem equality_follows_null_policy
    (ev : expression_evaluator) (LHS RHS Out : type_id)
    (equal : Elem LHS -> Elem RHS -> Elem Out)
    (output_object : OutputType) (storage : intermediate_storage)
    (output_row_index : Z) (output : device_data_reference) :
  binary_functor EQUAL LHS RHS = Some (existT Out equal) ->
  let handler := binary_expression_output_handler ev LHS RHS EQUAL
                   output_object storage output_row_index in
  let written := resolve_output Out output_object storage output
                   output_row_index in
  handler None None output
  = written (Some (construct_from_bool Out
                     (bool_decide (compare_nulls ev = null_equality.EQUAL))))
  /\ (forall l, handler (Some l) None output = written None)
  /\ (forall r, handler None (Some r) output = written None)
  /\ (forall l r, handler (Some l) (Some r) output
                  = written (Some (equal l r))).
Proof.
  intros valid handler written. subst handler written.
  unfold binary_expression_output_handler. rewrite valid.
  destruct (decide (EQUAL = EQUAL)) as [_ | different]; [| done].
  repeat split.
Qed.

(** C2: with [has_nulls = true], every unary operator and every binary
    operator other than equality propagates nulls: an absent operand gives
    an absent result, and present operands give the present result of the
    operator functor on them. *)
Theorem other_operators_propagate_nulls
    (ev : expression_evaluator) (op : ast_operator)
    (output_object : OutputType) (storage : intermediate_storage)
    (output_row_index : Z) (output : device_data_reference) :
  (forall Input Out (f : Elem Input -> Elem Out),
      unary_functor op Input = Some (existT Out f) ->
      let handler := unary_expression_output_handler Input op
                       output_object storage output_row_index in
      let written := resolve_output Out output_object storage output
                       output_row_index in
      handler None output = written None
      /\ (forall x, handler (Some x) output = written (Some (f x))))
  /\ (forall LHS RHS Out (f : Elem LHS -> Elem RHS -> Elem Out),
         op <> EQUAL ->
         binary_functor op LHS RHS = Some (existT Out f) ->
         let handler := binary_expression_output_handler ev LHS RHS op
                          output_object storage output_row_index in
         let written := resolve_output Out output_object storage output
                          output_row_index in
         (forall rhs, handler None rhs output = written None)
         /\ (forall lhs, handler lhs None output = written None)
         /\ (forall l r, handler (Some l) (Some r) output
                         = written (Some (f l r)))).
Proof.
  split.
  - intros Input Out f valid handler written. subst handler written.
    unfold unary_expression_output_handler. by rewrite valid.
  - intros LHS RHS Out f other valid handler written.
    subst handler written.
    unfold binary_expression_output_handler. rewrite valid.
    destruct (decide (op = EQUAL)) as [same | _]; [done |].
    repeat split; by intros [l |].
Qed.
End null_semantics.

(** ** Resolution of operands and dispatch *)

Section dispatch.
Context `{Operators} `{!ObjectRepresentation}.

(** [resolve_input] is instantiated at [Element]; the [data_type] that the
    reference declares plays no part. *)
Lemma resolve_input_ignores_data_type (has_nulls : bool)
    (ev : expression_evaluator) (storage : intermediate_storage)
    (Element T' : type_id) (reference : device_data_reference)
    (left_row_index : Z) (right_row_index : option Z) :
  resolve_input has_nulls ev storage Element (with_data_type reference T')
                left_row_index right_row_index
  = resolve_input has_nulls ev storage Element reference
                  left_row_index right_row_index.
Proof. reflexivity. Qed.

(** C3, as the code has it: the resolver has no test for [OUTPUT].  It
    resolves an input reference whose [table_source] is [OUTPUT] exactly as
    it resolves one whose [table_source] is [RIGHT]; at an element type
    with an element accessor it raises no assertion; and for a [COLUMN]
    reference with a right row index supplied it returns the element of the
    right table at that row, absent when [has_nulls] holds and the row is
    null. *)
Theorem output_source_resolved_as_right (has_nulls : bool)
    (ev : expression_evaluator) (storage : intermediate_storage)
    (Element : type_id) (reference : device_data_reference)
    (left_row_index : Z) (right_row_index : option Z) :
  let resolved :=
    resolve_input has_nulls ev storage Element
                  (with_table_source reference OUTPUT)
                  left_row_index right_row_index in
  resolved
  = resolve_input has_nulls ev storage Element
                  (with_table_source reference RIGHT)
                  left_row_index right_row_index
  /\ (has_element_accessor Element = true ->
      forall msg, resolved <> AssertionFailure msg)
  /\ (has_element_accessor Element = true ->
      reference_type reference = COLUMN ->
      forall row : Z,
        right_row_index = Some row ->
        let cell := column (right_table ev) (data_index reference) in
        resolved
        = match has_nulls as b
                return outcome (possibly_null_value_t b (Elem Element)) with
          | true =>
              Done (if column_is_valid cell row
                    then Some (column_element cell Element row)
                    else None)
          | false => Done (column_element cell Element row)
          end).
Proof.
  intros resolved. subst resolved. split; [reflexivity |].
  unfold resolve_input. simpl. split.
  - intros accessor msg. rewrite accessor.
    destruct (reference_type reference).
    + destruct right_row_index; simpl; [destruct has_nulls |]; discriminate.
    + unfold at_index. destruct (data_index reference <? 0); [discriminate |].
      destruct (literals (plan ev) !! _); simpl; discriminate.
    + unfold at_index. destruct (data_index reference <? 0); [discriminate |].
      destruct (storage !! _); simpl; [| discriminate].
      unfold memcpy. destruct (decide _); simpl; discriminate.
  - intros accessor is_column row ->. rewrite accessor, is_column. simpl.
    by destruct has_nulls.
Qed.

Context {has_nulls : bool} {OutputType T : Type}
        `{!expression_result OutputType T has_nulls}.

(** A unary operator over a column of the left table reads that table at
    [left_row_index]. *)
Lemma unary_left_column (ev : expression_evaluator) (op : ast_operator)
    (cursor : Z) (output_object : OutputType)
    (storage : intermediate_storage)
    (left_row_index right_row_index output_row_index : Z)
    (input output : device_data_reference) :
  ast_operator_arity op = 1 ->
  operand ev cursor = Done input ->
  operand ev (cursor + 1) = Done output ->
  reference_type input = COLUMN ->
  table_source input = LEFT ->
  has_element_accessor (data_type input) = true ->
  evaluate_operator ev op cursor output_object storage
                    left_row_index right_row_index output_row_index
  = (typed_input ←
       resolve_input has_nulls ev storage (data_type input)
                     (with_table_source input LEFT)
                     left_row_index (Some right_row_index);
     memory ← unary_expression_output_handler (data_type input) op
                output_object storage output_row_index typed_input output;
     Done (cursor + 2, memory)).
Proof.
  intros arity at_input at_output is_column is_left accessor.
  unfold evaluate_operator, call_unary, resolve_input.
  rewrite arity, at_input; simpl. rewrite at_output; simpl.
  rewrite accessor, is_column. simpl.
  destruct (decide (table_source input = LEFT)) as [_ | other]; [| done].
  by destruct has_nulls.
Qed.

(** A unary operator over a column of any other table reaches the
    dereference of the right row index that [call_unary] never passes. *)
Lemma unary_right_column (ev : expression_evaluator) (op : ast_operator)
    (cursor : Z) (output_object : OutputType)
    (storage : intermediate_storage)
    (left_row_index right_row_index output_row_index : Z)
    (input output : device_data_reference) :
  ast_operator_arity op = 1 ->
  operand ev cursor = Done input ->
  operand ev (cursor + 1) = Done output ->
  reference_type input = COLUMN ->
  table_source input <> LEFT ->
  has_element_accessor (data_type input) = true ->
  evaluate_operator ev op cursor output_object storage
                    left_row_index right_row_index output_row_index
  = Undefined "dereference of an empty optional".
Proof.
  intros arity at_input at_output is_column other accessor.
  unfold evaluate_operator, call_unary, resolve_input.
  rewrite arity, at_input; simpl. rewrite at_output; simpl.
  rewrite accessor, is_column. simpl.
  by destruct (decide (table_source input = LEFT)).
Qed.

(** C5: a binary operator is dispatched on one type: both operands are
    resolved, and the operator instantiated, at [(LHS, LHS)] where [LHS] is
    the [data_type] of the left operand's reference; the [data_type] declared
    by the right operand's reference takes no part. *)
Theorem binary_dispatch_on_left_type (ev : expression_evaluator)
    (op : ast_operator) (cursor : Z) (output_object : OutputType)
    (storage : intermediate_storage)
    (left_row_index right_row_index output_row_index : Z)
    (lhs rhs output : device_data_reference) :
  ast_operator_arity op = 2 ->
  operand ev cursor = Done lhs ->
  operand ev (cursor + 1) = Done rhs ->
  operand ev (cursor + 2) = Done output ->
  let LHS := data_type lhs in
  evaluate_operator ev op cursor output_object storage
                    left_row_index right_row_index output_row_index
  = (typed_lhs ← resolve_input has_nulls ev storage LHS lhs
                               left_row_index (Some right_row_index);
     typed_rhs ← resolve_input has_nulls ev storage LHS rhs
                               left_row_index (Some right_row_index);
     memory ← binary_expression_output_handler ev LHS LHS op output_object
                storage output_row_index typed_lhs typed_rhs output;
     Done (cursor + 3, memory))
  /\ (forall T' : type_id,
         call_binary ev LHS LHS output_object storage left_row_index
                     right_row_index lhs (with_data_type rhs T') output
                     output_row_index op
         = call_binary ev LHS LHS output_object storage left_row_index
                       right_row_index lhs rhs output output_row_index op).
Proof.
  intros arity at_lhs at_rhs at_output LHS. split.
  - unfold evaluate_operator, single_dispatch_binary_operator, call_binary.
    rewrite arity, at_lhs; simpl. rewrite at_rhs; simpl.
    rewrite at_output; simpl. subst LHS.
    destruct (resolve_input _ _ _ _ lhs _ _); simpl; try done.
    by destruct (resolve_input _ _ _ _ rhs _ _).
  - intros T'. unfold call_binary.
    by rewrite resolve_input_ignores_data_type.
Qed.

(** C9: [evaluate(sink, i)] is [evaluate(sink, i, i, i)]: the same
    container state and the same intermediate storage. *)
Theorem evaluate_row_is_evaluate_diagonal (ev : expression_evaluator)
    (output_object : OutputType) (storage : intermediate_storage)
    (row_index : Z) :
  evaluate_row ev output_object storage row_index
  = evaluate ev output_object storage row_index row_index row_index.
Proof. reflexivity. Qed.
End dispatch.

(** ** Intermediate slots *)

Section intermediate_slots.
Context `{Operators} `{!ObjectRepresentation}.

Lemma at_index_store_same (storage storage' : intermediate_storage)
    (i : Z) (x : list byte) :
  store storage i x = Done storage' -> at_index storage' i = Done x.
Proof.
  unfold store, at_index. intros stored.
  destruct (decide _) as [[nonnegative inside] | ]; [| done].
  injection stored as <-.
  rewrite (proj2 (Z.ltb_ge i 0)) by done.
  by rewrite list_lookup_insert_eq.
Qed.

Lemma at_index_store_other (storage storage' : intermediate_storage)
    (i j : Z) (x : list byte) :
  store storage j x = Done storage' -> 0 <= i -> i <> j ->
  at_index storage' i = at_index storage i.
Proof.
  unfold store, at_index. intros stored nonnegative different.
  destruct (decide _) as [[nonnegative' inside] | ]; [| done].
  injection stored as <-.
  rewrite list_lookup_insert_ne; [done |].
  intros same. apply different. by apply Z2Nat.inj.
Qed.

Lemma memcpy_whole (dst src : list byte) :
  (length src <= length dst)%nat ->
  memcpy dst src (length src) = Done (src ++ drop (length src) dst).
Proof.
  intros fits. unfold memcpy. rewrite decide_True by done.
  by rewrite firstn_all.
Qed.

Context {has_nulls : bool} {OutputType T : Type}
        `{!expression_result OutputType T has_nulls}.

(** C6: a value written to an intermediate slot by [resolve_output] is
    read back unchanged, validity included, by [resolve_input] at the same
    element type from any storage whose slot still holds what was
    written.  The element type is layout-compatible and its possibly-null
    form fits the slot (an element of at most 8 bytes); the object
    representation of the value has [sizeof] bytes and determines it. *)
Theorem intermediate_write_then_read
    (ev : expression_evaluator) (output_object : OutputType)
    (storage : intermediate_storage) (Element : type_id)
    (written read : device_data_reference) (row_index : Z)
    (result : possibly_null_value_t has_nulls (Elem Element))
    (left_row_index : Z) (right_row_index : option Z) :
  reference_type written = INTERMEDIATE ->
  reference_type read = INTERMEDIATE ->
  data_index read = data_index written ->
  is_rep_layout_compatible Element = true ->
  has_element_accessor Element = true ->
  (sizeof_rep has_nulls Element <= sizeof_intermediate has_nulls)%nat ->
  length (to_bytes has_nulls Element result) = sizeof_rep has_nulls Element ->
  from_bytes has_nulls Element (to_bytes has_nulls Element result) = result ->
  0 <= data_index written ->
  (Z.to_nat (data_index written) < length storage)%nat ->
  exists storage' : intermediate_storage,
    resolve_output Element output_object storage written row_index result
    = Done (output_object, storage')
    /\ forall later : intermediate_storage,
        at_index later (data_index written)
        = at_index storage' (data_index written) ->
        resolve_input has_nulls ev later Element read
                      left_row_index right_row_index
        = Done result.
Proof.
  intros is_written is_read same_slot compatible accessor fits size
         faithful nonnegative inside.
  set (bytes := to_bytes has_nulls Element result) in *.
  set (slot := bytes ++ drop (length bytes)
                             (uninitialized (sizeof_intermediate has_nulls))).
  exists (<[Z.to_nat (data_index written) := slot]> storage).
  assert (stored : store storage (data_index written) slot
                   = Done (<[Z.to_nat (data_index written) := slot]> storage))
    by (unfold store; by rewrite decide_True).
  split.
  - unfold resolve_output. rewrite compatible, is_written. simpl.
    rewrite <- size.
    rewrite memcpy_whole
      by (unfold uninitialized; rewrite length_replicate; by rewrite size).
    simpl. subst slot. by rewrite stored.
  - intros later unchanged. unfold resolve_input.
    rewrite accessor, is_read, same_slot. simpl.
    rewrite unchanged, (at_index_store_same _ _ _ _ stored). simpl.
    unfold memcpy. rewrite decide_True; last first.
    { unfold uninitialized, slot. rewrite length_replicate, length_app.
      fold bytes in size. lia. }
    simpl. unfold slot. rewrite <- size. fold bytes.
    rewrite take_app_length.
    unfold uninitialized. rewrite drop_replicate, Nat.sub_diag. simpl.
    by rewrite app_nil_r, faithful.
Qed.
End intermediate_slots.

(** ** What a row's result does not depend on *)

Section independence.
Context `{Operators} `{!ObjectRepresentation}.
Context {has_nulls : bool} {OutputType T : Type}
        `{!expression_result OutputType T has_nulls}.

(** Two evaluators that execute every operator of a list alike, from
    every cursor and memory, run the loop over that list alike. *)
Lemma evaluate_operators_alike (ev1 ev2 : expression_evaluator)
    (remaining : list ast_operator)
    (left_row_index right_row_index output_row_index : Z) :
  Forall (fun op =>
            forall cursor output_object storage,
              evaluate_operator ev1 op cursor output_object storage
                left_row_index right_row_index output_row_index
              = evaluate_operator ev2 op cursor output_object storage
                  left_row_index right_row_index output_row_index)
         remaining ->
  forall cursor output_object storage,
    evaluate_operators ev1 remaining cursor output_object storage
      left_row_index right_row_index output_row_index
    = evaluate_operators ev2 remaining cursor output_object storage
        left_row_index right_row_index output_row_index.
Proof.
  induction 1 as [| op remaining alike _ IH]; [done |].
  intros cursor output_object storage. simpl. rewrite alike.
  destruct (evaluate_operator ev2 op _ _ _ _ _ _)
    as [[cursor' [output_object' storage']] | |]; simpl; [| done | done].
  apply IH.
Qed.

Lemma binary_handler_ignores_policy
    (left right : table_device_view) (plan : expression_device_view)
    (policy1 policy2 : null_equality.t) (LHS RHS : type_id)
    (op : ast_operator) (output_object : OutputType)
    (storage : intermediate_storage) (output_row_index : Z)
    (lhs : possibly_null_value_t has_nulls (Elem LHS))
    (rhs : possibly_null_value_t has_nulls (Elem RHS))
    (output : device_data_reference) :
  op <> EQUAL ->
  binary_expression_output_handler (make_evaluator left right plan policy1)
    LHS RHS op output_object storage output_row_index lhs rhs output
  = binary_expression_output_handler (make_evaluator left right plan policy2)
      LHS RHS op output_object storage output_row_index lhs rhs output.
Proof.
  intros other. unfold binary_expression_output_handler.
  destruct (binary_functor op LHS RHS) as [[Out f] |]; [| done].
  destruct has_nulls; [| done].
  by destruct (decide (op = EQUAL)).
Qed.

(** C10: a plan without the equality operator gives, on every row, a
    result that does not depend on the null-equality policy the evaluator
    was constructed with. *)
Theorem policy_irrelevant_without_equality
    (left right : table_device_view) (plan : expression_device_view)
    (policy1 policy2 : null_equality.t)
    (output_object : OutputType) (storage : intermediate_storage)
    (left_row_index right_row_index output_row_index : Z) :
  Forall (fun op => op <> EQUAL) (operators plan) ->
  evaluate (make_evaluator left right plan policy1) output_object storage
           left_row_index right_row_index output_row_index
  = evaluate (make_evaluator left right plan policy2) output_object storage
             left_row_index right_row_index output_row_index.
Proof.
  intros no_equality. unfold evaluate.
  apply evaluate_operators_alike. simpl.
  eapply Forall_impl; [exact no_equality |].
  intros op other cursor sink memory. simpl in other.
  unfold evaluate_operator, single_dispatch_binary_operator, call_binary.
  destruct (decide (ast_operator_arity op = 1)); [done |].
  destruct (decide (ast_operator_arity op = 2)); [| done].
  destruct (operand _ cursor) as [lhs | |]; [simpl | done | done].
  destruct (operand _ (cursor + 1)) as [rhs | |]; [simpl | done | done].
  destruct (operand _ (cursor + 2)) as [output | |]; [simpl | done | done].
  change (resolve_input has_nulls (make_evaluator left right plan policy1))
    with (resolve_input has_nulls (make_evaluator left right plan policy2)).
  destruct (resolve_input _ _ _ _ lhs _ _) as [l | |]; [simpl | done | done].
  destruct (resolve_input _ _ _ _ rhs _ _) as [r | |]; [simpl | done | done].
  by rewrite (binary_handler_ignores_policy _ _ _ policy1 policy2).
Qed.
End independence.

Section null_masks.
Context `{Operators} `{!ObjectRepresentation}.
Context {OutputType T : Type} `{!expression_result OutputType T false}.

Lemma resolve_input_ignores_null_masks
    (left1 right1 left2 right2 : table_device_view)
    (plan : expression_device_view) (policy : null_equality.t)
    (storage : intermediate_storage) (Element : type_id)
    (reference : device_data_reference)
    (left_row_index : Z) (right_row_index : option Z) :
  same_elements left1 left2 -> same_elements right1 right2 ->
  resolve_input false (make_evaluator left1 right1 plan policy) storage
                Element reference left_row_index right_row_index
  = resolve_input false (make_evaluator left2 right2 plan policy) storage
                  Element reference left_row_index right_row_index.
Proof.
  intros same_left same_right. unfold resolve_input.
  destruct (has_element_accessor Element); [| done].
  destruct (reference_type reference); [| done | done]. simpl.
  destruct (decide (table_source reference = LEFT)); simpl.
  - by rewrite same_left.
  - destruct right_row_index; [simpl | done]. by rewrite same_right.
Qed.

(** C8: with [has_nulls = false] the result of every row is the same over
    tables that hold the same element values, whatever their null masks
    say: no validity bit takes part in the evaluation. *)
Theorem null_masks_irrelevant_without_nulls
    (left1 right1 left2 right2 : table_device_view)
    (plan : expression_device_view) (policy : null_equality.t)
    (output_object : OutputType) (storage : intermediate_storage)
    (left_row_index right_row_index output_row_index : Z) :
  same_elements left1 left2 -> same_elements right1 right2 ->
  evaluate (make_evaluator left1 right1 plan policy) output_object storage
           left_row_index right_row_index output_row_index
  = evaluate (make_evaluator left2 right2 plan policy) output_object storage
             left_row_index right_row_index output_row_index.
Proof.
  intros same_left same_right. unfold evaluate.
  apply evaluate_operators_alike. simpl.
  apply Forall_forall. intros op _ cursor sink memory.
  unfold evaluate_operator, single_dispatch_binary_operator, call_unary,
    call_binary.
  destruct (decide (ast_operator_arity op = 1)).
  - destruct (operand _ cursor) as [input | |]; [simpl | done | done].
    destruct (operand _ (cursor + 1)) as [output | |];
      [simpl | done | done].
    by rewrite (resolve_input_ignores_null_masks left1 right1 left2 right2).
  - destruct (decide (ast_operator_arity op = 2)); [| done].
    destruct (operand _ cursor) as [lhs | |]; [simpl | done | done].
    destruct (operand _ (cursor + 1)) as [rhs | |]; [simpl | done | done].
    destruct (operand _ (cursor + 2)) as [output | |];
      [simpl | done | done].
    by rewrite !(resolve_input_ignores_null_masks left1 right1 left2 right2).
Qed.
End null_masks.

(** * The properties at work on the concrete instance *)

Section concrete.
Import Demo.

(** ** The plan scenarios of the specification *)

(** A: [out = a + a] over [a = [1, 2, 3]]. *)
Example single_column_addition :
  run true (make_evaluator_one_table table_a
              (one_binary_plan ADD (column_ref INT32 0 LEFT)
                 (column_ref INT32 0 LEFT) INT32 [])
              null_equality.EQUAL) 0 3
  = Done [Some (int32 2); Some (int32 4); Some (int32 6)].
Proof. reflexivity. Qed.

(** B: [out = a * 2] over [a = [1, null, 3]]. *)
Example null_propagation :
  run true (make_evaluator_one_table table_a_b_null
              (one_binary_plan MUL (column_ref INT32 0 LEFT)
                 (literal_ref INT32 0) INT32 [literal_of 2])
              null_equality.EQUAL) 0 3
  = Done [Some (int32 2); None; Some (int32 6)].
Proof. reflexivity. Qed.

(** C and D: [out = (a == b)] over [a = [1, null, 3]], [b = [1, null, 4]]
    under either policy. *)
Example equality_under_either_policy :
  let equality policy :=
    run true (make_evaluator_one_table table_a_b_null
                (one_binary_plan EQUAL (column_ref INT32 0 LEFT)
                   (column_ref INT32 1 LEFT) BOOL8 [])
                policy) 0 3 in
  equality null_equality.EQUAL
  = Done [Some (bool8 true); Some (bool8 true); Some (bool8 false)]
  /\ equality null_equality.UNEQUAL
     = Done [Some (bool8 true); Some (bool8 false); Some (bool8 false)].
Proof. split; reflexivity. Qed.

(** E: [out = L.x - R.y] on the row triple [(2, 0, 0)]. *)
Example two_tables_differing_rows :
  evaluate (x_minus_y table_y) (scalar_sink INT32 true None) [] 2 0 0
  = Done (scalar_sink INT32 true (Some 29), []).
Proof. reflexivity. Qed.

(** F: [t0 = a + b], [t1 = t0 * c], [out = t1 - d]. *)
Example intermediate_reuse :
  run true (make_evaluator_one_table table_a_b_c_d chained_plan
              null_equality.EQUAL) 2 2
  = Done [Some (int32 6); Some (int32 13)].
Proof. reflexivity. Qed.

(** ** Instances of the theorems *)

Lemma equality_follows_null_policy_witness :
  binary_functor Demo.EQUAL INT32 INT32 = Some (existT BOOL8 Z.eqb)
  /\ binary_expression_output_handler
       (OutputType := scalar_result BOOL8 true)
       (x_minus_y table_y) INT32 INT32
       Demo.EQUAL (scalar_sink BOOL8 true None) [] 0 None None
       (column_ref BOOL8 0 OUTPUT)
     = Done (scalar_sink BOOL8 true (Some true), []).
Proof.
  split; [reflexivity |].
  etransitivity.
  - apply (equality_follows_null_policy
             (OutputType := scalar_result BOOL8 true)
             (x_minus_y table_y) INT32 INT32
             BOOL8 Z.eqb (scalar_sink BOOL8 true None) [] 0
             (column_ref BOOL8 0 OUTPUT)).
    reflexivity.
  - reflexivity.
Defined.

Lemma other_operators_propagate_nulls_witness :
  unary_functor IDENTITY INT32 = Some (existT INT32 (fun x : Z => x))
  /\ ADD <> Demo.EQUAL
  /\ binary_functor ADD INT32 INT32
     = Some (existT INT32 (fun x y : Z => wrap 32 (x + y)))
  /\ unary_expression_output_handler
       (OutputType := scalar_result INT32 true) INT32 IDENTITY
       (scalar_sink INT32 true (Some 5)) [] 0 None
       (column_ref INT32 0 OUTPUT)
     = Done (scalar_sink INT32 true None, [])
  /\ binary_expression_output_handler
       (OutputType := scalar_result INT32 true)
       (x_minus_y table_y) INT32 INT32 ADD
       (scalar_sink INT32 true (Some 5)) [] 0 (Some 1) None
       (column_ref INT32 0 OUTPUT)
     = Done (scalar_sink INT32 true None, []).
Proof.
  pose proof (other_operators_propagate_nulls
                (OutputType := scalar_result INT32 true)
                (x_minus_y table_y) ADD
                (scalar_sink INT32 true (Some 5)) [] 0
                (column_ref INT32 0 OUTPUT)) as [_ binary].
  pose proof (other_operators_propagate_nulls
                (OutputType := scalar_result INT32 true)
                (x_minus_y table_y) IDENTITY
                (scalar_sink INT32 true (Some 5)) [] 0
                (column_ref INT32 0 OUTPUT)) as [unary _].
  split; [reflexivity |]. split; [discriminate |].
  split; [reflexivity |]. split.
  - etransitivity.
    + apply (unary INT32 INT32 (fun x : Z => x)). reflexivity.
    + reflexivity.
  - etransitivity.
    + apply (binary INT32 INT32 INT32 (fun x y : Z => wrap 32 (x + y)));
        [discriminate | reflexivity].
    + reflexivity.
Defined.

(** C3 fails as stated: an input reference whose [table_source] is
    [OUTPUT] raises no assertion; the resolver returns the element of the
    right table, and a binary operator over two such references runs to
    completion. *)
Lemma output_source_raises_no_assertion :
  let ev := make_evaluator table_x table_y
              (one_binary_plan ADD (column_ref INT32 0 OUTPUT)
                 (column_ref INT32 0 OUTPUT) INT32 [])
              null_equality.EQUAL in
  resolve_input true ev [] INT32 (column_ref INT32 0 OUTPUT) 2 (Some 0)
  = Done (Some 1)
  /\ evaluate ev (scalar_sink INT32 true None) [] 2 0 0
     = Done (scalar_sink INT32 true (Some 2), []).
Proof. split; reflexivity. Qed.

(** C4 on a column of the right table: [call_unary] hands
    [resolve_input] no right row index, and the resolver dereferences the
    empty optional instead of reading row [right_row_index]; over the left
    table the same plan reads row [left_row_index]. *)
Example unary_operator_on_right_table :
  let identity source :=
    make_evaluator table_x table_y
      (one_unary_plan IDENTITY (column_ref INT32 0 source) INT32)
      null_equality.EQUAL in
  evaluate (identity RIGHT) (scalar_sink INT32 true None) [] 2 0 0
  = Undefined "dereference of an empty optional"
  /\ evaluate (identity LEFT) (scalar_sink INT32 true None) [] 2 0 0
     = Done (scalar_sink INT32 true (Some 30), []).
Proof. split; reflexivity. Qed.

Lemma binary_dispatch_on_left_type_witness :
  let ev := make_evaluator table_x table_y
              (one_binary_plan SUB (column_ref INT32 0 LEFT)
                 (column_ref INT64 0 RIGHT) INT32 [])
              null_equality.EQUAL in
  ast_operator_arity SUB = 2
  /\ operand ev 0 = Done (column_ref INT32 0 LEFT)
  /\ operand ev (0 + 1) = Done (column_ref INT64 0 RIGHT)
  /\ operand ev (0 + 2) = Done (column_ref INT32 0 OUTPUT)
  /\ evaluate_operator ev SUB 0 (scalar_sink INT32 true None) [] 2 0 0
     = Done (0 + 3, (scalar_sink INT32 true (Some 29), [])).
Proof.
  intros ev. repeat (split; [reflexivity |]).
  etransitivity.
  - apply (binary_dispatch_on_left_type
             (OutputType := scalar_result INT32 true) ev SUB 0
             (scalar_sink INT32 true None) [] 2 0 0
             (column_ref INT32 0 LEFT) (column_ref INT64 0 RIGHT)
             (column_ref INT32 0 OUTPUT)); reflexivity.
  - reflexivity.
Defined.

Lemma intermediate_write_then_read_witness :
  let written := intermediate_ref INT32 1 in
  let result : possibly_null_value_t true (Elem INT32) := Some (-7) in
  reference_type written = INTERMEDIATE
  /\ is_rep_layout_compatible INT32 = true
  /\ has_element_accessor INT32 = true
  /\ (sizeof_rep true INT32 <= sizeof_intermediate true)%nat
  /\ length (to_bytes true INT32 result) = sizeof_rep true INT32
  /\ from_bytes true INT32 (to_bytes true INT32 result) = result
  /\ 0 <= data_index written
  /\ (Z.to_nat (data_index written) < length (scratch true 2))%nat
  /\ exists storage' : intermediate_storage,
      resolve_output (OutputType := scalar_result INT32 true) INT32
                     (scalar_sink INT32 true None) (scratch true 2)
                     written 0 result
      = Done (scalar_sink INT32 true None, storage')
      /\ resolve_input true (x_minus_y table_y) storage' INT32 written
                       0 None
         = Done result.
Proof.
  intros written result.
  assert (fits : (sizeof_rep true INT32 <= sizeof_intermediate true)%nat)
    by (vm_compute; lia).
  assert (nonnegative : 0 <= data_index written) by (vm_compute; discriminate).
  assert (inside : (Z.to_nat (data_index written)
                    < length (scratch true 2))%nat)
    by (vm_compute; lia).
  repeat (split; [first [reflexivity | assumption] |]).
  pose proof (intermediate_write_then_read
                (OutputType := scalar_result INT32 true)
                (x_minus_y table_y) (scalar_sink INT32 true None)
                (scratch true 2) INT32 written written 0 result 0 None)
    as round_trip.
  destruct round_trip as [storage' [stored read_back]];
    [reflexivity | reflexivity | reflexivity | reflexivity | reflexivity
     | exact fits | reflexivity | reflexivity | exact nonnegative
     | exact inside |].
  exists storage'. split; [exact stored |]. by apply read_back.
Defined.

Lemma same_elements_masked : same_elements table_y table_y_masked.
Proof.
  intros i T row. unfold table_y, table_y_masked, table_of. simpl.
  by destruct (Z.to_nat i) as [| []].
Qed.

Lemma null_masks_irrelevant_without_nulls_witness :
  same_elements table_x table_x
  /\ same_elements table_y table_y_masked
  /\ evaluate (x_minus_y table_y) (scalar_sink INT32 false 0) [] 2 0 0
     = evaluate (x_minus_y table_y_masked) (scalar_sink INT32 false 0) []
                2 0 0.
Proof.
  split; [done |]. split; [exact same_elements_masked |].
  apply (null_masks_irrelevant_without_nulls
           (OutputType := scalar_result INT32 false)
           table_x table_y table_x table_y_masked);
    [done | exact same_elements_masked].
Defined.

Lemma policy_irrelevant_without_equality_witness :
  Forall (fun op => op <> Demo.EQUAL) (operators chained_plan)
  /\ evaluate (make_evaluator table_a_b_c_d table_a_b_c_d chained_plan
                 null_equality.EQUAL)
              (scalar_sink INT32 true None) (scratch true 2) 1 1 1
     = evaluate (make_evaluator table_a_b_c_d table_a_b_c_d chained_plan
                   null_equality.UNEQUAL)
                (scalar_sink INT32 true None) (scratch true 2) 1 1 1.
Proof.
  assert (no_equality : Forall (fun op => op <> Demo.EQUAL)
                               (operators chained_plan))
    by (repeat constructor; discriminate).
  split; [exact no_equality |].
  apply (policy_irrelevant_without_equality
           (OutputType := scalar_result INT32 true)
           table_a_b_c_d table_a_b_c_d chained_plan).
  exact no_equality.
Defined.

Lemma output_source_resolved_as_right_witness :
  let ev := make_evaluator table_x table_a_b_null
              (one_binary_plan ADD (column_ref INT32 0 OUTPUT)
                 (column_ref INT32 1 OUTPUT) INT32 [])
              null_equality.EQUAL in
  has_element_accessor INT32 = true
  /\ reference_type (column_ref INT32 1 LEFT) = COLUMN
  /\ (forall msg,
         resolve_input true ev [] INT32 (column_ref INT32 1 OUTPUT) 2 (Some 2)
         <> AssertionFailure msg)
  /\ resolve_input true ev [] INT32 (column_ref INT32 1 OUTPUT) 2 (Some 2)
     = Done (Some 4)
  /\ resolve_input true ev [] INT32 (column_ref INT32 1 OUTPUT) 2 (Some 1)
     = Done None.
Proof.
  intros ev.
  pose proof (output_source_resolved_as_right true ev [] INT32
                (column_ref INT32 1 LEFT) 2 (Some 2)) as (_ & silent & read).
  pose proof (output_source_resolved_as_right true ev [] INT32
                (column_ref INT32 1 LEFT) 2 (Some 1)) as (_ & _ & read_null).
  split; [reflexivity |]. split; [reflexivity |].
  split; [exact (silent eq_refl) |].
  split; [exact (read eq_refl eq_refl 2 eq_refl) |].
  exact (read_null eq_refl eq_refl 1 eq_refl).
Defined.
End concrete.

(** * Further properties of the evaluator *)

(** ** Reading outcomes *)

Lemma bind_Done {A B : Type} (m : outcome A) (k : A -> outcome B) (b : B) :
  m ≫= k = Done b -> exists a, m = Done a /\ k a = Done b.
Proof. destruct m as [a | |]; [by exists a | done | done]. Qed.

Lemma at_index_Done {A : Type} (a : list A) (i : Z) (x : A) :
  at_index a i = Done x ->
  0 <= i /\ (Z.to_nat i < length a)%nat /\ a !! Z.to_nat i = Some x.
Proof.
  unfold at_index. destruct (Z.ltb_spec i 0) as [negative | nonnegative];
    [done |].
  destruct (a !! Z.to_nat i) as [y |] eqn:found; [| done].
  intros [= <-]. split; [done |]. split; [| done].
  by apply lookup_lt_Some in found.
Qed.

Ltac outcome_inversion :=
  repeat match goal with
         | H : _ ≫= _ = Done _ |- _ =>
             apply bind_Done in H; destruct H as (? & ? & H)
         | H : Done _ = Done _ |- _ => injection H as H; subst
         | H : AssertionFailure _ = Done _ |- _ => discriminate H
         | H : Undefined _ = Done _ |- _ => discriminate H
         | H : cudf_assert_false _ = Done _ |- _ => discriminate H
         end.

(** ** The cursor into the operand-index stream *)

Section cursor.
Context `{Operators} `{!ObjectRepresentation}.
Context {has_nulls : bool} {OutputType T : Type}
        `{!expression_result OutputType T has_nulls}.

Lemma operator_advances (ev : expression_evaluator)
    (op : ast_operator) (cursor cursor' : Z)
    (output_object : OutputType) (storage : intermediate_storage)
    (left_row_index right_row_index output_row_index : Z)
    (memory : OutputType * intermediate_storage) :
  evaluate_operator ev op cursor output_object storage
                    left_row_index right_row_index output_row_index
  = Done (cursor', memory) ->
  (ast_operator_arity op = 1 \/ ast_operator_arity op = 2)
  /\ cursor' = cursor + ast_operator_arity op + 1
  /\ exists output, operand ev (cursor + ast_operator_arity op) = Done output.
Proof.
  unfold evaluate_operator. intros executed.
  destruct (decide (ast_operator_arity op = 1)) as [unary | ].
  - outcome_inversion. rewrite unary. eauto with lia.
  - destruct (decide (ast_operator_arity op = 2)) as [binary | ];
      [| done].
    outcome_inversion. rewrite binary. eauto with lia.
Qed.

(** X1: An operator that executes has arity 1 or 2, found all its references
    through the stream, and leaves the cursor behind its output entry. *)
Theorem evaluate_operator_advances (ev : expression_evaluator)
    (op : ast_operator) (cursor cursor' : Z)
    (output_object : OutputType) (storage : intermediate_storage)
    (left_row_index right_row_index output_row_index : Z)
    (memory : OutputType * intermediate_storage) :
  evaluate_operator ev op cursor output_object storage
                    left_row_index right_row_index output_row_index
  = Done (cursor', memory) ->
  (ast_operator_arity op = 1 \/ ast_operator_arity op = 2)
  /\ cursor' = cursor + ast_operator_arity op + 1
  /\ exists output, operand ev (cursor + ast_operator_arity op) = Done output.
Proof. apply operator_advances. Qed.

(** X2: Running a list of operators followed by another is running the first,
    then the second with the cursor moved past the entries the first
    consumed; a failure in the first is the failure of the whole. *)
Theorem evaluate_operators_app (ev : expression_evaluator)
    (first second : list ast_operator) (cursor : Z)
    (output_object : OutputType) (storage : intermediate_storage)
    (left_row_index right_row_index output_row_index : Z) :
  evaluate_operators ev (first ++ second) cursor output_object storage
                     left_row_index right_row_index output_row_index
  = (memory ← evaluate_operators ev first cursor output_object storage
                left_row_index right_row_index output_row_index;
     evaluate_operators ev second (cursor + operand_stream_length first)
       memory.1 memory.2 left_row_index right_row_index output_row_index).
Proof.
  revert cursor output_object storage.
  induction first as [| op first IH]; intros cursor output_object storage.
  - simpl. by rewrite Z.add_0_r.
  - simpl.
    destruct (evaluate_operator ev op cursor output_object storage _ _ _)
      as [[cursor' [output_object' storage']] | |] eqn:executed;
      [simpl | done | done].
    apply operator_advances in executed as (_ & -> & _).
    rewrite IH.
    by replace (cursor + (ast_operator_arity op + 1
                          + operand_stream_length first))
      with (cursor + ast_operator_arity op + 1 + operand_stream_length first)
      by lia.
Qed.

(** X3: A run that completes has stayed inside the operand-index stream: every
    operator has arity 1 or 2 and, from a non-negative cursor, all the
    entries the operators consume exist. *)
Theorem evaluate_operators_within_stream (ev : expression_evaluator)
    (ops : list ast_operator) (cursor : Z)
    (output_object : OutputType) (storage : intermediate_storage)
    (left_row_index right_row_index output_row_index : Z)
    (memory : OutputType * intermediate_storage) :
  evaluate_operators ev ops cursor output_object storage
                     left_row_index right_row_index output_row_index
  = Done memory ->
  0 <= cursor ->
  ops <> [] ->
  Forall (fun op => ast_operator_arity op = 1 \/ ast_operator_arity op = 2)
         ops
  /\ cursor + operand_stream_length ops
     <= Z.of_nat (length (operator_source_indices (plan ev))).
Proof.
  revert cursor output_object storage.
  induction ops as [| op ops IH]; intros cursor output_object storage;
    [done |].
  simpl. intros completed nonnegative _.
  apply bind_Done in completed
    as ([cursor' [output_object' storage']] & executed & completed).
  apply operator_advances in executed
    as (arity & -> & output & found).
  unfold operand in found. apply bind_Done in found as (source & found & _).
  apply at_index_Done in found as (_ & inside & _).
  destruct ops as [| op' ops'].
  - split; [by constructor |]. unfold operand_stream_length. simpl. lia.
  - apply IH in completed as [arities bound]; [| lia | done].
    split; [by constructor |].
    change (operand_stream_length (op :: op' :: ops'))
      with (ast_operator_arity op + 1 + operand_stream_length (op' :: ops')).
    lia.
Qed.
End cursor.

(** ** What a run writes *)

Section footprint.
Context `{Operators} `{!ObjectRepresentation}.
Context {has_nulls : bool} {OutputType T : Type}
        `{!expression_result OutputType T has_nulls}.

Lemma store_length (storage storage' : intermediate_storage) (i : Z)
    (x : list byte) :
  store storage i x = Done storage' -> length storage' = length storage.
Proof.
  unfold store. destruct (decide _); [| done].
  intros [= <-]. apply length_insert.
Qed.

Lemma resolve_output_footprint (Element : type_id)
    (output_object output_object' : OutputType)
    (storage storage' : intermediate_storage)
    (output : device_data_reference) (row_index : Z)
    (result : possibly_null_value_t has_nulls (Elem Element)) :
  resolve_output Element output_object storage output row_index result
  = Done (output_object', storage') ->
  written_through output (output_object, storage) (output_object', storage').
Proof.
  unfold resolve_output, written_through. simpl.
  destruct (is_rep_layout_compatible Element); [| done].
  intros written.
  destruct (decide (reference_type output = COLUMN)) as [is_column | other].
  - rewrite is_column in written. by outcome_inversion.
  - assert (stored : exists tmp, store storage (data_index output) tmp
                                 = Done storage' /\ output_object' = output_object).
    { destruct (reference_type output); [done | |];
        outcome_inversion; eauto. }
    destruct stored as (tmp & stored & ->).
    split; [done |]. split; [by eapply store_length |].
    intros i nonnegative different. by eapply at_index_store_other.
Qed.

Lemma operator_footprint (ev : expression_evaluator)
    (op : ast_operator) (cursor cursor' : Z)
    (output_object output_object' : OutputType)
    (storage storage' : intermediate_storage)
    (left_row_index right_row_index output_row_index : Z) :
  evaluate_operator ev op cursor output_object storage
                    left_row_index right_row_index output_row_index
  = Done (cursor', (output_object', storage')) ->
  exists output : device_data_reference,
    operand ev (cursor + ast_operator_arity op) = Done output
    /\ written_through output (output_object, storage)
                       (output_object', storage').
Proof.
  unfold evaluate_operator, single_dispatch_binary_operator, call_unary,
    call_binary, unary_expression_output_handler,
    binary_expression_output_handler.
  intros executed.
  destruct (decide (ast_operator_arity op = 1)) as [-> | ].
  - outcome_inversion.
    match goal with
    | found : operand ev (cursor + 1) = Done ?output |- _ =>
        exists output; split; [done |]
    end.
    destruct (unary_functor _ _) as [[Out f] |]; [| done].
    by eapply resolve_output_footprint.
  - destruct (decide (ast_operator_arity op = 2)) as [-> | ]; [| done].
    outcome_inversion.
    match goal with
    | found : operand ev (cursor + 2) = Done ?output |- _ =>
        exists output; split; [done |]
    end.
    destruct (binary_functor _ _ _) as [[Out f] |]; [| done].
    by eapply resolve_output_footprint.
Qed.

(** X4: One operator writes through its output reference only: it changes the
    output object or one intermediate slot, never both, and no other
    slot. *)
Theorem evaluate_operator_footprint (ev : expression_evaluator)
    (op : ast_operator) (cursor cursor' : Z)
    (output_object output_object' : OutputType)
    (storage storage' : intermediate_storage)
    (left_row_index right_row_index output_row_index : Z) :
  evaluate_operator ev op cursor output_object storage
                    left_row_index right_row_index output_row_index
  = Done (cursor', (output_object', storage')) ->
  exists output : device_data_reference,
    operand ev (cursor + ast_operator_arity op) = Done output
    /\ written_through output (output_object, storage)
                       (output_object', storage').
Proof. apply operator_footprint. Qed.

Lemma operand_in_table (ev : expression_evaluator) (i : Z)
    (reference : device_data_reference) :
  operand ev i = Done reference -> reference ∈ data_references (plan ev).
Proof.
  unfold operand. intros found.
  apply bind_Done in found as (source & _ & found).
  apply at_index_Done in found as (_ & _ & found).
  by eapply list_elem_of_lookup_2.
Qed.

Lemma evaluate_operators_footprint (ev : expression_evaluator)
    (ops : list ast_operator) (cursor : Z)
    (output_object output_object' : OutputType)
    (storage storage' : intermediate_storage)
    (left_row_index right_row_index output_row_index : Z) :
  evaluate_operators ev ops cursor output_object storage
                     left_row_index right_row_index output_row_index
  = Done (output_object', storage') ->
  length storage' = length storage
  /\ (forall i : Z,
         0 <= i ->
         (forall reference,
             reference ∈ data_references (plan ev) ->
             reference_type reference <> COLUMN ->
             data_index reference <> i) ->
         at_index storage' i = at_index storage i)
  /\ ((forall reference,
          reference ∈ data_references (plan ev) ->
          reference_type reference <> COLUMN) ->
      output_object' = output_object).
Proof.
  revert cursor output_object storage.
  induction ops as [| op ops IH]; intros cursor output_object storage.
  - by intros [= <- <-].
  - simpl. intros completed.
    apply bind_Done in completed
      as ([cursor1 [output_object1 storage1]] & executed & completed).
    apply operator_footprint in executed
      as (output & found & written).
    apply operand_in_table in found.
    apply IH in completed as (count & slots & object).
    unfold written_through in written. simpl in written.
    destruct (decide (reference_type output = COLUMN)) as [is_column | other].
    + subst storage1. split; [done |]. split; [done |].
      intros no_column. by destruct (no_column output found).
    + destruct written as (-> & count1 & slots1).
      split; [congruence |]. split; [| done].
      intros i nonnegative unnamed.
      rewrite slots by done. apply slots1; [done |].
      intros same. by apply (unnamed output found other).
Qed.

(** X5: A row's evaluation leaves the intermediate storage with the number of
    slots it had. *)
Theorem evaluate_preserves_slot_count (ev : expression_evaluator)
    (output_object output_object' : OutputType)
    (storage storage' : intermediate_storage)
    (left_row_index right_row_index output_row_index : Z) :
  evaluate ev output_object storage
           left_row_index right_row_index output_row_index
  = Done (output_object', storage') ->
  length storage' = length storage.
Proof.
  intros completed.
  by apply evaluate_operators_footprint in completed as (count & _ & _).
Qed.

(** X6: A row's evaluation changes no intermediate slot other than those named
    by the [data_index] of a reference of the plan that is not a [COLUMN]
    reference. *)
Theorem evaluate_writes_named_slots_only (ev : expression_evaluator)
    (output_object output_object' : OutputType)
    (storage storage' : intermediate_storage)
    (left_row_index right_row_index output_row_index : Z) (i : Z) :
  evaluate ev output_object storage
           left_row_index right_row_index output_row_index
  = Done (output_object', storage') ->
  0 <= i ->
  (forall reference,
      reference ∈ data_references (plan ev) ->
      reference_type reference <> COLUMN ->
      data_index reference <> i) ->
  at_index storage' i = at_index storage i.
Proof.
  intros completed nonnegative unnamed.
  apply evaluate_operators_footprint in completed as (_ & slots & _).
  by apply slots.
Qed.

(** X7: A plan none of whose references is a [COLUMN] reference never writes
    the output object. *)
Theorem evaluate_without_column_keeps_output (ev : expression_evaluator)
    (output_object output_object' : OutputType)
    (storage storage' : intermediate_storage)
    (left_row_index right_row_index output_row_index : Z) :
  evaluate ev output_object storage
           left_row_index right_row_index output_row_index
  = Done (output_object', storage') ->
  (forall reference,
      reference ∈ data_references (plan ev) ->
      reference_type reference <> COLUMN) ->
  output_object' = output_object.
Proof.
  intros completed no_column.
  apply evaluate_operators_footprint in completed as (_ & _ & object).
  by apply object.
Qed.
End footprint.

(** ** The scratch at the start of a row *)

Section scratch.
Context `{Operators} `{!ObjectRepresentation}.
Context {has_nulls : bool} {OutputType T : Type}
        `{!expression_result OutputType T has_nulls}.

Lemma at_index_store_elsewhere (storage storage' : intermediate_storage)
    (i j : Z) (x : list byte) :
  store storage j x = Done storage' -> i <> j ->
  at_index storage' i = at_index storage i.
Proof.
  intros stored different.
  destruct (Z.le_gt_cases 0 i) as [nonnegative | negative];
    [by eapply at_index_store_other |].
  unfold at_index. by rewrite !(proj2 (Z.ltb_lt i 0)).
Qed.

Lemma resolve_input_agree (written : list Z)
    (storage1 storage2 : intermediate_storage) (ev : expression_evaluator)
    (Element : type_id) (reference : device_data_reference)
    (left_row_index : Z) (right_row_index : option Z) :
  agree_on written storage1 storage2 ->
  intermediate_ready written (Done reference) = true ->
  resolve_input has_nulls ev storage1 Element reference
                left_row_index right_row_index
  = resolve_input has_nulls ev storage2 Element reference
                  left_row_index right_row_index.
Proof.
  intros [_ same] ready. unfold resolve_input.
  destruct (has_element_accessor Element); [| done].
  destruct (reference_type reference) eqn:kind; [done | done |].
  simpl in ready. rewrite kind, decide_True in ready by done.
  apply bool_decide_eq_true in ready. simpl. by rewrite (same _ ready).
Qed.

Lemma resolve_output_agree (written : list Z)
    (storage1 storage2 : intermediate_storage) (Element : type_id)
    (output_object : OutputType) (output : device_data_reference)
    (row_index : Z) (result : possibly_null_value_t has_nulls (Elem Element)) :
  agree_on written storage1 storage2 ->
  memory_alike
    (if decide (reference_type output = COLUMN) then written
     else data_index output :: written)
    (resolve_output Element output_object storage1 output row_index result)
    (resolve_output Element output_object storage2 output row_index result).
Proof.
  intros [count same]. unfold resolve_output.
  destruct (is_rep_layout_compatible Element); [| done]. simpl.
  destruct (decide (reference_type output = COLUMN)) as [is_column | other].
  - rewrite is_column.
    by destruct (set_value Element output_object row_index result).
  - assert (stored :
      memory_alike (data_index output :: written)
        (tmp ← memcpy (uninitialized (sizeof_intermediate has_nulls))
                      (to_bytes has_nulls Element result)
                      (sizeof_rep has_nulls Element);
         storage ← store storage1 (data_index output) tmp;
         Done (output_object, storage))
        (tmp ← memcpy (uninitialized (sizeof_intermediate has_nulls))
                      (to_bytes has_nulls Element result)
                      (sizeof_rep has_nulls Element);
         storage ← store storage2 (data_index output) tmp;
         Done (output_object, storage))).
    { destruct (memcpy _ _ _) as [tmp | |]; [simpl | done | done].
      destruct (decide (0 <= data_index output
                        /\ (Z.to_nat (data_index output) < length storage1)%nat))
        as [inside | outside].
      - assert (stored1 : store storage1 (data_index output) tmp
                          = Done (<[Z.to_nat (data_index output) := tmp]>
                                    storage1))
          by (unfold store; by rewrite decide_True).
        assert (stored2 : store storage2 (data_index output) tmp
                          = Done (<[Z.to_nat (data_index output) := tmp]>
                                    storage2))
          by (unfold store; rewrite <- count; by rewrite decide_True).
        rewrite stored1, stored2. simpl. split; [done |]. split.
        + by rewrite !length_insert.
        + intros i named.
          destruct (decide (i = data_index output)) as [-> | elsewhere].
          * by rewrite (at_index_store_same _ _ _ _ stored1),
              (at_index_store_same _ _ _ _ stored2).
          * rewrite (at_index_store_elsewhere _ _ _ _ _ stored1) by done.
            rewrite (at_index_store_elsewhere _ _ _ _ _ stored2) by done.
            apply same. by apply elem_of_cons in named as [? | ?].
      - unfold store. rewrite <- count. by rewrite !decide_False. }
    by destruct (reference_type output).
Qed.

Lemma evaluate_operator_agree (ev : expression_evaluator)
    (op : ast_operator) (ops : list ast_operator) (cursor : Z)
    (written : list Z) (output_object : OutputType)
    (storage1 storage2 : intermediate_storage)
    (left_row_index right_row_index output_row_index : Z) :
  reads_written ev (op :: ops) cursor written = true ->
  agree_on written storage1 storage2 ->
  match evaluate_operator ev op cursor output_object storage1
          left_row_index right_row_index output_row_index,
        evaluate_operator ev op cursor output_object storage2
          left_row_index right_row_index output_row_index with
  | Done (cursor1, (object1, storage1')), Done (cursor2, (object2, storage2')) =>
      cursor1 = cursor2 /\ object1 = object2
      /\ exists written',
          agree_on written' storage1' storage2'
          /\ reads_written ev ops cursor1 written' = true
  | AssertionFailure msg1, AssertionFailure msg2 => msg1 = msg2
  | Undefined why1, Undefined why2 => why1 = why2
  | _, _ => False
  end.
Proof.
  intros reads agree. simpl in reads.
  apply andb_true_iff in reads as [ready rest].
  assert (lift : forall (cursor' : Z) (written' : list Z)
                        (run1 run2 : outcome (OutputType * intermediate_storage)),
             memory_alike written' run1 run2 ->
             reads_written ev ops cursor' written' = true ->
             match (memory ← run1; Done (cursor', memory)),
                   (memory ← run2; Done (cursor', memory)) with
             | Done (cursor1, (object1, storage1')),
               Done (cursor2, (object2, storage2')) =>
                 cursor1 = cursor2 /\ object1 = object2
                 /\ exists written',
                     agree_on written' storage1' storage2'
                     /\ reads_written ev ops cursor1 written' = true
             | AssertionFailure msg1, AssertionFailure msg2 => msg1 = msg2
             | Undefined why1, Undefined why2 => why1 = why2
             | _, _ => False
             end).
  { intros cursor' written' [[object1 storage1'] | |] [[object2 storage2'] | |];
      simpl; try done.
    intros [-> agreed] remaining. eauto. }
  unfold evaluate_operator, single_dispatch_binary_operator, call_unary,
    call_binary, unary_expression_output_handler,
    binary_expression_output_handler.
  destruct (decide (ast_operator_arity op = 1)) as [unary | ].
  - rewrite unary in rest.
    destruct (operand ev cursor) as [input | |]; [simpl | done | done].
    destruct (operand ev (cursor + 1)) as [output | |]; [simpl | done | done].
    rewrite (resolve_input_agree written storage1 storage2) by done.
    destruct (resolve_input _ _ storage2 _ input _ _) as [typed | |];
      [simpl | done | done].
    replace (cursor + 1 + 1) with (cursor + 2) in rest by lia.
    destruct (unary_functor _ _) as [[Out f] |]; [| done].
    eapply lift; [by apply resolve_output_agree | done].
  - destruct (decide (ast_operator_arity op = 2)) as [binary | ]; [| done].
    rewrite binary in rest. apply andb_true_iff in ready as [ready1 ready2].
    destruct (operand ev cursor) as [lhs | |]; [simpl | done | done].
    destruct (operand ev (cursor + 1)) as [rhs | |]; [simpl | done | done].
    destruct (operand ev (cursor + 2)) as [output | |]; [simpl | done | done].
    rewrite !(resolve_input_agree written storage1 storage2) by done.
    destruct (resolve_input _ _ storage2 _ lhs _ _) as [typed_lhs | |];
      [simpl | done | done].
    destruct (resolve_input _ _ storage2 _ rhs _ _) as [typed_rhs | |];
      [simpl | done | done].
    replace (cursor + 2 + 1) with (cursor + 3) in rest by lia.
    destruct (binary_functor _ _ _) as [[Out f] |]; [| done].
    eapply lift; [by apply resolve_output_agree | done].
Qed.

Lemma evaluate_operators_agree (ev : expression_evaluator)
    (ops : list ast_operator) (cursor : Z) (written : list Z)
    (output_object : OutputType) (storage1 storage2 : intermediate_storage)
    (left_row_index right_row_index output_row_index : Z) :
  reads_written ev ops cursor written = true ->
  agree_on written storage1 storage2 ->
  exists written',
    memory_alike written'
      (evaluate_operators ev ops cursor output_object storage1
         left_row_index right_row_index output_row_index)
      (evaluate_operators ev ops cursor output_object storage2
         left_row_index right_row_index output_row_index).
Proof.
  revert cursor written output_object storage1 storage2.
  induction ops as [| op ops IH];
    intros cursor written output_object storage1 storage2 reads agree.
  - by exists written.
  - pose proof (evaluate_operator_agree ev op ops cursor written output_object
                  storage1 storage2 left_row_index right_row_index
                  output_row_index reads agree) as step.
    cbn [evaluate_operators].
    destruct (evaluate_operator ev op cursor output_object storage1 _ _ _)
      as [[cursor1 [object1 storage1']] | |];
      destruct (evaluate_operator ev op cursor output_object storage2 _ _ _)
        as [[cursor2 [object2 storage2']] | |]; try done.
    + destruct step as (-> & -> & written' & agreed & remaining). simpl.
      by apply (IH cursor2 written').
    + exists written. by subst.
    + exists written. by subst.
Qed.

(** X8: What the scratch holds when a row starts does not matter to a plan
    that writes every intermediate before reading it: from two storages
    with the same number of slots, evaluation ends in the same failure or
    with the same output object. *)
Theorem initial_scratch_irrelevant (ev : expression_evaluator)
    (output_object : OutputType) (storage1 storage2 : intermediate_storage)
    (left_row_index right_row_index output_row_index : Z) :
  reads_written ev (operators (plan ev)) 0 [] = true ->
  length storage1 = length storage2 ->
  (memory ← evaluate ev output_object storage1
              left_row_index right_row_index output_row_index;
   Done memory.1)
  = (memory ← evaluate ev output_object storage2
                left_row_index right_row_index output_row_index;
     Done memory.1).
Proof.
  intros reads count. unfold evaluate.
  destruct (evaluate_operators_agree ev (operators (plan ev)) 0 []
              output_object storage1 storage2 left_row_index right_row_index
              output_row_index reads) as [written' alike].
  { split; [done |]. intros i named. by apply elem_of_nil in named. }
  destruct (evaluate_operators ev _ 0 output_object storage1 _ _ _)
    as [[object1 storage1'] | |];
    destruct (evaluate_operators ev _ 0 output_object storage2 _ _ _)
      as [[object2 storage2'] | |]; simpl in *; try done.
  - by destruct alike as [-> _].
  - by subst.
  - by subst.
Qed.
End scratch.

(** ** What the resolver looks at *)

Section resolver.
Context `{Operators} `{!ObjectRepresentation}.

(** X9: A column of the left table is resolved from the left table and the left
    row index alone: the right table, the right row index (present or not),
    the plan, the policy and the intermediate storage play no part. *)
Theorem left_column_ignores_right_side (has_nulls : bool)
    (left right right' : table_device_view)
    (plan plan' : expression_device_view) (policy policy' : null_equality.t)
    (storage storage' : intermediate_storage) (Element : type_id)
    (reference : device_data_reference)
    (left_row_index : Z) (right_row_index right_row_index' : option Z) :
  reference_type reference = COLUMN ->
  table_source reference = LEFT ->
  resolve_input has_nulls (make_evaluator left right plan policy) storage
                Element reference left_row_index right_row_index
  = resolve_input has_nulls (make_evaluator left right' plan' policy') storage'
                  Element reference left_row_index right_row_index'.
Proof.
  intros is_column is_left. unfold resolve_input.
  rewrite is_column, is_left. simpl.
  by destruct (has_element_accessor Element), has_nulls.
Qed.

(** X10: A literal or an intermediate is resolved from the plan's literals and
    the intermediate storage alone: neither table and neither row index
    plays a part, and an absent right row index does no harm. *)
Theorem non_column_ignores_rows_and_tables (has_nulls : bool)
    (left right left' right' : table_device_view)
    (plan : expression_device_view) (policy policy' : null_equality.t)
    (storage : intermediate_storage) (Element : type_id)
    (reference : device_data_reference)
    (left_row_index left_row_index' : Z)
    (right_row_index right_row_index' : option Z) :
  reference_type reference <> COLUMN ->
  resolve_input has_nulls (make_evaluator left right plan policy) storage
                Element reference left_row_index right_row_index
  = resolve_input has_nulls (make_evaluator left' right' plan policy') storage
                  Element reference left_row_index' right_row_index'.
Proof.
  intros other. unfold resolve_input.
  by destruct (has_element_accessor Element), (reference_type reference).
Qed.

(** X11: Over tables without a null, the nullable resolver returns what the
    null-free resolver returns, marked present, for every column and
    literal operand. *)
Theorem nullable_resolver_on_valid_tables (ev : expression_evaluator)
    (storage : intermediate_storage) (Element : type_id)
    (reference : device_data_reference)
    (left_row_index : Z) (right_row_index : option Z) :
  (forall i row, column_is_valid (column (left_table ev) i) row = true) ->
  (forall i row, column_is_valid (column (right_table ev) i) row = true) ->
  reference_type reference <> INTERMEDIATE ->
  resolve_input true ev storage Element reference
                left_row_index right_row_index
  = (v ← resolve_input false ev storage Element reference
                       left_row_index right_row_index;
     Done (Some v)).
Proof.
  intros valid_left valid_right other. unfold resolve_input.
  destruct (has_element_accessor Element); [| done].
  destruct (reference_type reference); [| | done]; simpl.
  - destruct (decide (table_source reference = LEFT)); simpl.
    + by rewrite valid_left.
    + destruct right_row_index; [simpl | done]. by rewrite valid_right.
  - by destruct (at_index _ _).
Qed.

Context {has_nulls : bool} {OutputType T : Type}
        `{!expression_result OutputType T has_nulls}.

(** X12: With one table and one row index for both sides, a binary operator
    gives the same result whichever [table_source] its two operands
    declare. *)
Theorem one_table_source_irrelevant (table : table_device_view)
    (plan : expression_device_view) (policy : null_equality.t)
    (LHS RHS : type_id) (output_object : OutputType)
    (storage : intermediate_storage) (row_index output_row_index : Z)
    (lhs rhs output : device_data_reference) (op : ast_operator)
    (lhs_source lhs_source' rhs_source rhs_source' : table_reference) :
  let ev := make_evaluator_one_table table plan policy in
  call_binary ev LHS RHS output_object storage row_index row_index
              (with_table_source lhs lhs_source)
              (with_table_source rhs rhs_source)
              output output_row_index op
  = call_binary ev LHS RHS output_object storage row_index row_index
                (with_table_source lhs lhs_source')
                (with_table_source rhs rhs_source')
                output output_row_index op.
Proof.
  assert (resolved : forall Element reference source source',
             resolve_input has_nulls
               (make_evaluator_one_table table plan policy) storage Element
               (with_table_source reference source) row_index (Some row_index)
             = resolve_input has_nulls
                 (make_evaluator_one_table table plan policy) storage Element
                 (with_table_source reference source') row_index
                 (Some row_index)).
  { intros Element reference source source'. unfold resolve_input. simpl.
    destruct (has_element_accessor Element); [| done].
    destruct (reference_type reference); [| done | done].
    by destruct (decide (source = LEFT)), (decide (source' = LEFT)). }
  intros ev. unfold call_binary. subst ev.
  by rewrite (resolved LHS lhs lhs_source lhs_source'),
       (resolved RHS rhs rhs_source rhs_source').
Qed.

(** X13: An operator that executes met what the evaluator relies on: its first
    operand's [data_type] has an element accessor, the operator is valid at
    that type (taken twice for a binary operator), and its result type is
    layout-compatible. *)
Theorem evaluate_operator_requirements (ev : expression_evaluator)
    (op : ast_operator) (cursor cursor' : Z)
    (output_object : OutputType) (storage : intermediate_storage)
    (left_row_index right_row_index output_row_index : Z)
    (memory : OutputType * intermediate_storage) :
  evaluate_operator ev op cursor output_object storage
                    left_row_index right_row_index output_row_index
  = Done (cursor', memory) ->
  exists first : device_data_reference,
    operand ev cursor = Done first
    /\ has_element_accessor (data_type first) = true
    /\ exists Out : type_id,
        is_rep_layout_compatible Out = true
        /\ ((ast_operator_arity op = 1
             /\ exists f, unary_functor op (data_type first)
                          = Some (existT Out f))
            \/ (ast_operator_arity op = 2
                /\ exists f, binary_functor op (data_type first)
                               (data_type first)
                             = Some (existT Out f))).
Proof.
  assert (accessor : forall storage Element reference l r v,
             resolve_input has_nulls ev storage Element reference l r = Done v ->
             has_element_accessor Element = true).
  { intros ? Element ? ? ? ?. unfold resolve_input.
    by destruct (has_element_accessor Element). }
  assert (compatible : forall Element object storage reference row result m,
             resolve_output Element object storage reference row result
             = Done m ->
             is_rep_layout_compatible Element = true).
  { intros Element ? ? ? ? ? ?. unfold resolve_output.
    by destruct (is_rep_layout_compatible Element). }
  unfold evaluate_operator, single_dispatch_binary_operator, call_unary,
    call_binary, unary_expression_output_handler,
    binary_expression_output_handler.
  intros executed.
  destruct (decide (ast_operator_arity op = 1)) as [unary | ].
  - outcome_inversion.
    match goal with
    | found : operand ev cursor = Done ?first |- _ =>
        exists first; split; [done |]
    end.
    split; [by eapply accessor |].
    destruct (unary_functor _ _) as [[Out f] |] eqn:valid; [| done].
    exists Out. split; [by eapply compatible |]. left. eauto.
  - destruct (decide (ast_operator_arity op = 2)) as [binary | ]; [| done].
    outcome_inversion.
    match goal with
    | found : operand ev cursor = Done ?first |- _ =>
        exists first; split; [done |]
    end.
    split; [by eapply accessor |].
    destruct (binary_functor _ _ _) as [[Out f] |] eqn:valid; [| done].
    exists Out. split; [by eapply compatible |]. right. eauto.
Qed.
End resolver.

Section null_free_policy.
Context `{Operators} `{!ObjectRepresentation}.
Context {OutputType T : Type} `{!expression_result OutputType T false}.

(** X14: With [has_nulls = false] the null-equality policy is never read: every
    plan, the equality operator included, evaluates alike under both
    policies. *)
Theorem policy_irrelevant_without_nulls
    (left right : table_device_view) (plan : expression_device_view)
    (policy1 policy2 : null_equality.t)
    (output_object : OutputType) (storage : intermediate_storage)
    (left_row_index right_row_index output_row_index : Z) :
  evaluate (make_evaluator left right plan policy1) output_object storage
           left_row_index right_row_index output_row_index
  = evaluate (make_evaluator left right plan policy2) output_object storage
             left_row_index right_row_index output_row_index.
Proof.
  unfold evaluate. apply evaluate_operators_alike. simpl.
  apply Forall_forall. intros op _ cursor sink memory.
  reflexivity.
Qed.
End null_free_policy.

(** ** The scalar container and result types *)

Section scalar_container.
Context `{Operators} `{!ObjectRepresentation}.

(** X15: The scalar container takes results of its own element type only: a
    result of any other layout-compatible type written through a [COLUMN]
    reference fails the assertion of [set_value]. *)
Theorem scalar_sink_rejects_other_types (T Element : type_id)
    (has_nulls : bool) (sink : value_expression_result.t T has_nulls)
    (storage : intermediate_storage) (output : device_data_reference)
    (row_index : Z)
    (result : possibly_null_value_t has_nulls (Elem Element)) :
  Element <> T ->
  is_rep_layout_compatible Element = true ->
  reference_type output = COLUMN ->
  resolve_output Element sink storage output row_index result
  = AssertionFailure "Output type does not match container type.".
Proof.
  intros different compatible is_column. unfold resolve_output.
  rewrite compatible, is_column.
  unfold set_value, value_expression_result.value_result,
    value_expression_result.set_value.
  by destruct (decide (Element = T)).
Qed.
End scalar_container.

(** * Properties of the device operators *)

Section integers.
Implicit Types (T : integral) (x y z : Z).

Lemma pow2_split T : 0 < bits T -> 2 ^ bits T = 2 * 2 ^ (bits T - 1).
Proof.
  intros positive. rewrite <- Z.pow_succ_r by lia. f_equal. lia.
Qed.

Lemma convert_representable T x :
  0 < bits T -> representable T x -> convert T x = x.
Proof.
  unfold representable, numeric_limits_lowest, numeric_limits_max, convert.
  intros positive range. pose proof (pow2_split T positive) as split.
  assert (0 < 2 ^ (bits T - 1)) by (apply Z.pow_pos_nonneg; lia).
  destruct (is_signed T); simpl.
  - destruct (Z.le_gt_cases 0 x) as [nonnegative | negative].
    + rewrite Z.mod_small by lia.
      by rewrite (proj2 (Z.leb_gt _ _)) by lia.
    + replace (x mod 2 ^ bits T) with (x + 2 ^ bits T).
      * rewrite (proj2 (Z.leb_le _ _)) by lia. lia.
      * apply Z.mod_unique with (q := -1); lia.
  - apply Z.mod_small. lia.
Qed.

Lemma representable_int T x :
  0 < bits T -> bits T < bits int -> representable T x -> representable int x.
Proof.
  unfold representable, numeric_limits_lowest, numeric_limits_max.
  intros positive narrow range. simpl in *.
  assert (2 ^ bits T <= 2 ^ 31) by (apply Z.pow_le_mono_r; lia).
  assert (0 < 2 ^ (bits T - 1)) by (apply Z.pow_pos_nonneg; lia).
  pose proof (pow2_split T positive). change (2 ^ (32 - 1)) with (2 ^ 31).
  destruct (is_signed T); lia.
Qed.

Lemma arithmetic_representable T x :
  0 < bits T -> representable T x -> arithmetic T x = Done x.
Proof.
  intros positive range. unfold arithmetic.
  destruct (Z.ltb_spec (bits T) (bits int)) as [narrow | wide].
  - rewrite decide_True by by apply (representable_int T).
    by rewrite convert_representable.
  - destruct (is_signed T) eqn:signed.
    + by rewrite decide_True.
    + f_equal. apply Z.mod_small.
      unfold representable, numeric_limits_lowest, numeric_limits_max in range.
      rewrite signed in range. lia.
Qed.

(** X16: The identity of [DeviceSum] is neutral: added on either side to a value
    of the type, it gives that value back and never overflows. *)
Theorem DeviceSum_identity_neutral T x :
  0 < bits T -> representable T x ->
  DeviceSum.call T (DeviceSum.identity T) x = Done x
  /\ DeviceSum.call T x (DeviceSum.identity T) = Done x.
Proof.
  intros positive range. unfold DeviceSum.call, DeviceSum.identity.
  rewrite Z.add_0_l, Z.add_0_r. by rewrite arithmetic_representable.
Qed.

(** X17: The identity of [DeviceProduct] is neutral on either side. *)
Theorem DeviceProduct_identity_neutral T x :
  0 < bits T -> representable T x ->
  DeviceProduct.call T (DeviceProduct.identity T) x = Done x
  /\ DeviceProduct.call T x (DeviceProduct.identity T) = Done x.
Proof.
  intros positive range. unfold DeviceProduct.call, DeviceProduct.identity.
  rewrite Z.mul_1_l, Z.mul_1_r. by rewrite arithmetic_representable.
Qed.

Lemma std_min_max_spec x y :
  std_min x y = Z.min x y /\ std_max x y = Z.max x y.
Proof.
  unfold std_min, std_max.
  destruct (Z.ltb_spec y x), (Z.ltb_spec x y); lia.
Qed.

(** X18: The identities of [DeviceMin] and [DeviceMax], the largest and the
    lowest value of the type, are neutral on either side for every value of
    the type. *)
Theorem DeviceMin_DeviceMax_identity_neutral T x :
  representable T x ->
  DeviceMin.call T (DeviceMin.identity T) x = x
  /\ DeviceMin.call T x (DeviceMin.identity T) = x
  /\ DeviceMax.call T (DeviceMax.identity T) x = x
  /\ DeviceMax.call T x (DeviceMax.identity T) = x.
Proof.
  unfold representable, DeviceMin.call, DeviceMin.identity, DeviceMax.call,
    DeviceMax.identity.
  intros range.
  rewrite !(proj1 (std_min_max_spec _ _)), !(proj2 (std_min_max_spec _ _)).
  lia.
Qed.

(** X19: [DeviceMin] and [DeviceMax] are commutative, associative and
    idempotent, return one of their operands, and bound both: the order in
    which a reduction combines its items does not matter. *)
Theorem DeviceMin_DeviceMax_lattice T x y z :
  (DeviceMin.call T x y = DeviceMin.call T y x
   /\ DeviceMin.call T x (DeviceMin.call T y z)
      = DeviceMin.call T (DeviceMin.call T x y) z
   /\ DeviceMin.call T x x = x
   /\ (DeviceMin.call T x y = x \/ DeviceMin.call T x y = y)
   /\ DeviceMin.call T x y <= x /\ DeviceMin.call T x y <= y)
  /\ (DeviceMax.call T x y = DeviceMax.call T y x
      /\ DeviceMax.call T x (DeviceMax.call T y z)
         = DeviceMax.call T (DeviceMax.call T x y) z
      /\ DeviceMax.call T x x = x
      /\ (DeviceMax.call T x y = x \/ DeviceMax.call T x y = y)
      /\ x <= DeviceMax.call T x y /\ y <= DeviceMax.call T x y).
Proof.
  unfold DeviceMin.call, DeviceMax.call.
  rewrite !(proj1 (std_min_max_spec _ _)), !(proj2 (std_min_max_spec _ _)).
  lia.
Qed.

(** X20: [DeviceCount] counts: threaded through a list of items as the right
    operand, starting from its identity, the running value ends as the
    number of items, whatever the items are, as long as the type can
    represent that number. *)
Theorem DeviceCount_counts T (items : list Z) :
  0 < bits T ->
  representable T (Z.of_nat (length items)) ->
  accumulate (DeviceCount.call T) (DeviceCount.identity T) items
  = Done (Z.of_nat (length items)).
Proof.
  intros positive. unfold accumulate, DeviceCount.identity.
  assert (counted : forall (items : list Z) (n : nat),
             representable T (Z.of_nat (n + length items)) ->
             foldl (fun running item => running ≫= DeviceCount.call T item)
                   (Done (Z.of_nat n)) items
             = Done (Z.of_nat (n + length items))).
  { clear items. induction items as [| item items IH]; intros n range.
    - simpl. by rewrite Nat.add_0_r.
    - simpl in *. unfold DeviceCount.call at 2.
      replace (Z.of_nat n + 1) with (Z.of_nat (S n)) by lia.
      rewrite arithmetic_representable; [| done |].
      + rewrite IH; [do 2 f_equal; lia |].
        by replace (S n + length items)%nat with (n + S (length items))%nat
          by lia.
      + unfold representable, numeric_limits_lowest in *.
        destruct (is_signed T);
          [assert (0 < 2 ^ (bits T - 1)) by (apply Z.pow_pos_nonneg; lia) |];
          lia. }
  intros range. by apply (counted items 0%nat).
Qed.

(** X21: at an unsigned hash type no narrower than [int], with the
    sentinel of the same type, [remap_sentinel_hash] never fails, never
    returns the sentinel, returns a value of the hash type, and leaves
    every hash other than the sentinel as it is. *)
Theorem remap_sentinel_hash_avoids_sentinel (H : integral)
    (hash sentinel : Z) :
  is_signed H = false ->
  bits int <= bits H ->
  representable H hash ->
  representable H sentinel ->
  exists remapped : Z,
    remap_sentinel_hash H H hash sentinel = Done remapped
    /\ remapped <> sentinel
    /\ representable H remapped
    /\ (hash <> sentinel -> remapped = hash).
Proof.
  intros unsigned wide hash_range sentinel_range.
  assert (positive : 0 < bits H) by (simpl in wide; lia).
  assert (not_narrow : (bits H <? bits int) = false) by by apply Z.ltb_ge.
  assert (compared : common_type H H = H).
  { unfold common_type, promote. rewrite not_narrow, eqb_reflx.
    by rewrite Z.ltb_irrefl. }
  assert (returned : common_type H int = H).
  { unfold common_type, promote. rewrite not_narrow, unsigned. simpl.
    by rewrite (proj2 (Z.leb_le _ _)). }
  unfold remap_sentinel_hash. rewrite compared, returned.
  rewrite !convert_representable by done.
  assert (2 <= 2 ^ bits H).
  { change 2 with (2 ^ 1) at 1. apply Z.pow_le_mono_r; lia. }
  unfold representable, numeric_limits_lowest, numeric_limits_max in *.
  rewrite unsigned in *.
  destruct (Z.eqb_spec hash sentinel) as [<- | different];
    [| exists hash; repeat split; lia].
  unfold arithmetic. rewrite not_narrow, unsigned.
  exists ((hash - 1) mod 2 ^ bits H).
  pose proof (Z.mod_pos_bound (hash - 1) (2 ^ bits H)).
  split; [done |]. split; [| split; [lia | done]].
  destruct (Z.eq_dec hash 0) as [-> | nonzero].
  - replace ((0 - 1) mod 2 ^ bits H) with (2 ^ bits H - 1); [lia |].
    apply Z.mod_unique with (q := -1); lia.
  - rewrite Z.mod_small by lia. lia.
Qed.
End integers.

Section unsigned_arithmetic.
Implicit Types (T : integral) (x y z : Z).

(** X22: At an unsigned type no narrower than [int], [DeviceSum] and
    [DeviceProduct] never fail: they wrap modulo [2 ^ bits], and wrapping
    keeps them commutative and associative, so a reduction gives one result
    however it groups and orders its items. *)
Theorem unsigned_sum_and_product_wrap T x y z :
  is_signed T = false -> bits int <= bits T ->
  (DeviceSum.call T x y = Done ((x + y) mod 2 ^ bits T)
   /\ DeviceSum.call T x y = DeviceSum.call T y x
   /\ (s ← DeviceSum.call T x y; DeviceSum.call T s z)
      = (s ← DeviceSum.call T y z; DeviceSum.call T x s))
  /\ (DeviceProduct.call T x y = Done ((x * y) mod 2 ^ bits T)
      /\ DeviceProduct.call T x y = DeviceProduct.call T y x
      /\ (p ← DeviceProduct.call T x y; DeviceProduct.call T p z)
         = (p ← DeviceProduct.call T y z; DeviceProduct.call T x p)).
Proof.
  intros unsigned wide.
  assert (nonzero : 2 ^ bits T <> 0).
  { apply Z.pow_nonzero; [done |]. simpl in wide. lia. }
  assert (wraps : forall r, arithmetic T r = Done (r mod 2 ^ bits T)).
  { intros r. unfold arithmetic.
    by rewrite (proj2 (Z.ltb_ge _ _)), unsigned by done. }
  unfold DeviceSum.call, DeviceProduct.call. rewrite !wraps. simpl.
  rewrite !wraps.
  rewrite Z.add_mod_idemp_l, Z.add_mod_idemp_r by done.
  rewrite Z.mul_mod_idemp_l, Z.mul_mod_idemp_r by done.
  repeat split; f_equal; f_equal; lia.
Qed.
End unsigned_arithmetic.

(** * The further properties at work on the concrete instance *)

Section concrete_further.
Import Demo.

Lemma evaluate_operator_advances_witness :
  evaluate_operator (x_minus_y table_y) SUB 0 unset [] 2 0 0
  = Done (3, (scalar_sink INT32 true (Some 29), []))
  /\ (ast_operator_arity SUB = 1 \/ ast_operator_arity SUB = 2)
  /\ 3 = 0 + ast_operator_arity SUB + 1
  /\ exists output,
      operand (x_minus_y table_y) (0 + ast_operator_arity SUB) = Done output.
Proof.
  split; [reflexivity |].
  apply (evaluate_operator_advances (OutputType := scalar_result INT32 true)
           (x_minus_y table_y) SUB 0 3 unset [] 2 0 0
           (scalar_sink INT32 true (Some 29), [])).
  reflexivity.
Defined.

Lemma evaluate_operators_within_stream_witness :
  evaluate_operators chained (operators chained_plan) 0 unset
                     (scratch true 2) 1 1 1
  = Done (scalar_sink INT32 true (Some 13),
          [slot_of true INT32 (Some 4); slot_of true INT32 (Some 20)])
  /\ 0 <= 0
  /\ operators chained_plan <> []
  /\ Forall (fun op => ast_operator_arity op = 1 \/ ast_operator_arity op = 2)
            (operators chained_plan)
  /\ 0 + operand_stream_length (operators chained_plan)
     <= Z.of_nat (length (operator_source_indices (plan chained))).
Proof.
  split; [reflexivity |]. split; [done |]. split; [done |].
  apply (evaluate_operators_within_stream
           (OutputType := scalar_result INT32 true) chained
           (operators chained_plan) 0 unset (scratch true 2) 1 1 1
           (scalar_sink INT32 true (Some 13),
            [slot_of true INT32 (Some 4); slot_of true INT32 (Some 20)]));
    [reflexivity | done | done].
Defined.

Lemma evaluate_operator_footprint_witness :
  evaluate_operator chained ADD 0 unset (scratch true 2) 1 1 1
  = Done (3, (unset, [slot_of true INT32 (Some 4); uninitialized 16]))
  /\ exists output,
      operand chained (0 + ast_operator_arity ADD) = Done output
      /\ written_through output (unset, scratch true 2)
           (unset, [slot_of true INT32 (Some 4); uninitialized 16]).
Proof.
  split; [reflexivity |].
  apply (evaluate_operator_footprint (OutputType := scalar_result INT32 true)
           chained ADD 0 3 unset unset (scratch true 2)
           [slot_of true INT32 (Some 4); uninitialized 16] 1 1 1).
  reflexivity.
Defined.

Lemma evaluate_preserves_slot_count_witness :
  evaluate chained unset (scratch true 2) 1 1 1
  = Done (scalar_sink INT32 true (Some 13),
          [slot_of true INT32 (Some 4); slot_of true INT32 (Some 20)])
  /\ length [slot_of true INT32 (Some 4); slot_of true INT32 (Some 20)]
     = length (scratch true 2).
Proof.
  split; [reflexivity |].
  apply (evaluate_preserves_slot_count
           (OutputType := scalar_result INT32 true) chained unset
           (scalar_sink INT32 true (Some 13)) (scratch true 2)
           [slot_of true INT32 (Some 4); slot_of true INT32 (Some 20)] 1 1 1).
  reflexivity.
Defined.

Lemma chained_plan_names_no_slot_2 (reference : device_data_reference) :
  reference ∈ data_references (plan chained) ->
  reference_type reference <> COLUMN ->
  data_index reference <> 2.
Proof.
  intros named other. simpl in named.
  repeat (apply elem_of_cons in named as [-> | named]; [done |]).
  by apply elem_of_nil in named.
Qed.

Lemma evaluate_writes_named_slots_only_witness :
  let after := [slot_of true INT32 (Some 4); slot_of true INT32 (Some 20);
                uninitialized 16] in
  evaluate chained unset (scratch true 3) 1 1 1
  = Done (scalar_sink INT32 true (Some 13), after)
  /\ 0 <= 2
  /\ (forall reference,
         reference ∈ data_references (plan chained) ->
         reference_type reference <> COLUMN ->
         data_index reference <> 2)
  /\ at_index after 2 = at_index (scratch true 3) 2.
Proof.
  intros after. split; [reflexivity |]. split; [done |].
  split; [exact chained_plan_names_no_slot_2 |].
  apply (evaluate_writes_named_slots_only
           (OutputType := scalar_result INT32 true) chained unset
           (scalar_sink INT32 true (Some 13)) (scratch true 3) after 1 1 1 2);
    [reflexivity | done | exact chained_plan_names_no_slot_2].
Defined.

Lemma literal_sum_plan_has_no_column (reference : device_data_reference) :
  reference ∈ data_references (plan literal_sum) ->
  reference_type reference <> COLUMN.
Proof.
  intros named. simpl in named.
  repeat (apply elem_of_cons in named as [-> | named]; [done |]).
  by apply elem_of_nil in named.
Qed.

Lemma evaluate_without_column_keeps_output_witness :
  evaluate literal_sum (scalar_sink INT32 true (Some 7)) (scratch true 1) 0 0 0
  = Done (scalar_sink INT32 true (Some 7), [slot_of true INT32 (Some 5)])
  /\ (forall reference,
         reference ∈ data_references (plan literal_sum) ->
         reference_type reference <> COLUMN)
  /\ scalar_sink INT32 true (Some 7) = scalar_sink INT32 true (Some 7).
Proof.
  split; [reflexivity |]. split; [exact literal_sum_plan_has_no_column |].
  apply (evaluate_without_column_keeps_output
           (OutputType := scalar_result INT32 true) literal_sum
           (scalar_sink INT32 true (Some 7)) (scalar_sink INT32 true (Some 7))
           (scratch true 1) [slot_of true INT32 (Some 5)] 0 0 0);
    [reflexivity | exact literal_sum_plan_has_no_column].
Defined.

Lemma left_column_ignores_right_side_witness :
  reference_type (column_ref INT32 0 LEFT) = COLUMN
  /\ table_source (column_ref INT32 0 LEFT) = LEFT
  /\ resolve_input true
       (make_evaluator table_x table_y chained_plan null_equality.EQUAL)
       (scratch true 2) INT32 (column_ref INT32 0 LEFT) 2 (Some 0)
     = resolve_input true
         (make_evaluator table_x table_a_b_null literal_sum_plan
            null_equality.UNEQUAL)
         [] INT32 (column_ref INT32 0 LEFT) 2 None.
Proof.
  split; [reflexivity |]. split; [reflexivity |].
  apply (left_column_ignores_right_side true table_x table_y table_a_b_null
           chained_plan literal_sum_plan null_equality.EQUAL
           null_equality.UNEQUAL (scratch true 2) [] INT32
           (column_ref INT32 0 LEFT) 2 (Some 0) None);
    reflexivity.
Defined.

Lemma non_column_ignores_rows_and_tables_witness :
  reference_type (literal_ref INT32 1) <> COLUMN
  /\ resolve_input true
       (make_evaluator table_x table_y literal_sum_plan null_equality.EQUAL)
       [] INT32 (literal_ref INT32 1) 2 (Some 0)
     = resolve_input true
         (make_evaluator table_a table_a_b_null literal_sum_plan
            null_equality.UNEQUAL)
         [] INT32 (literal_ref INT32 1) 0 None.
Proof.
  split; [discriminate |].
  apply (non_column_ignores_rows_and_tables true table_x table_y table_a
           table_a_b_null literal_sum_plan null_equality.EQUAL
           null_equality.UNEQUAL [] INT32 (literal_ref INT32 1) 2 0
           (Some 0) None).
  discriminate.
Defined.

Lemma table_x_has_no_null (i row : Z) :
  column_is_valid (column table_x i) row = true.
Proof.
  unfold table_x, table_of. simpl.
  destruct (Z.to_nat i) as [| []]; simpl; by destruct (Z.to_nat row).
Qed.

Lemma table_y_has_no_null (i row : Z) :
  column_is_valid (column table_y i) row = true.
Proof.
  unfold table_y, table_of. simpl.
  destruct (Z.to_nat i) as [| []]; simpl; by destruct (Z.to_nat row).
Qed.

Lemma nullable_resolver_on_valid_tables_witness :
  (forall i row,
      column_is_valid (column (left_table (x_minus_y table_y)) i) row = true)
  /\ (forall i row,
         column_is_valid (column (right_table (x_minus_y table_y)) i) row
         = true)
  /\ reference_type (column_ref INT32 0 RIGHT) <> INTERMEDIATE
  /\ resolve_input true (x_minus_y table_y) [] INT32
       (column_ref INT32 0 RIGHT) 2 (Some 0)
     = (v ← resolve_input false (x_minus_y table_y) [] INT32
                          (column_ref INT32 0 RIGHT) 2 (Some 0);
        Done (Some v)).
Proof.
  split; [exact table_x_has_no_null |].
  split; [exact table_y_has_no_null |].
  split; [discriminate |].
  apply (nullable_resolver_on_valid_tables (x_minus_y table_y) [] INT32
           (column_ref INT32 0 RIGHT) 2 (Some 0));
    [exact table_x_has_no_null | exact table_y_has_no_null | discriminate].
Defined.

Lemma evaluate_operator_requirements_witness :
  evaluate_operator (x_minus_y table_y) SUB 0 unset [] 2 0 0
  = Done (3, (scalar_sink INT32 true (Some 29), []))
  /\ exists first : device_data_reference,
      operand (x_minus_y table_y) 0 = Done first
      /\ has_element_accessor (data_type first) = true
      /\ exists Out : type_id,
          is_rep_layout_compatible Out = true
          /\ ((ast_operator_arity SUB = 1
               /\ exists f, unary_functor SUB (data_type first)
                            = Some (existT Out f))
              \/ (ast_operator_arity SUB = 2
                  /\ exists f, binary_functor SUB (data_type first)
                                 (data_type first)
                               = Some (existT Out f))).
Proof.
  split; [reflexivity |].
  apply (evaluate_operator_requirements
           (OutputType := scalar_result INT32 true) (x_minus_y table_y) SUB
           0 3 unset [] 2 0 0 (scalar_sink INT32 true (Some 29), [])).
  reflexivity.
Defined.

Lemma scalar_sink_rejects_other_types_witness :
  INT32 <> BOOL8
  /\ is_rep_layout_compatible INT32 = true
  /\ reference_type (column_ref INT32 0 OUTPUT) = COLUMN
  /\ resolve_output (OutputType := scalar_result BOOL8 true) INT32
       (scalar_sink BOOL8 true None) [] (column_ref INT32 0 OUTPUT) 0
       (Some 5)
     = AssertionFailure "Output type does not match container type.".
Proof.
  split; [discriminate |]. split; [reflexivity |]. split; [reflexivity |].
  apply scalar_sink_rejects_other_types;
    [discriminate | reflexivity | reflexivity].
Defined.

Lemma initial_scratch_irrelevant_witness :
  reads_written chained (operators (plan chained)) 0 [] = true
  /\ length (scratch true 2) = length [[x01]; [xff; xff]]
  /\ (memory ← evaluate chained unset (scratch true 2) 1 1 1; Done memory.1)
     = (memory ← evaluate chained unset [[x01]; [xff; xff]] 1 1 1;
        Done memory.1).
Proof.
  split; [reflexivity |]. split; [reflexivity |].
  apply (initial_scratch_irrelevant (OutputType := scalar_result INT32 true)
           chained unset (scratch true 2) [[x01]; [xff; xff]] 1 1 1);
    reflexivity.
Defined.

Lemma DeviceSum_identity_neutral_witness :
  0 < bits int8_t
  /\ representable int8_t (-128)
  /\ DeviceSum.call int8_t (DeviceSum.identity int8_t) (-128) = Done (-128)
  /\ DeviceSum.call int8_t (-128) (DeviceSum.identity int8_t) = Done (-128).
Proof.
  assert (range : representable int8_t (-128)) by (vm_compute; split; discriminate).
  split; [done |]. split; [exact range |].
  apply (DeviceSum_identity_neutral int8_t (-128)); [done | exact range].
Defined.

Lemma DeviceProduct_identity_neutral_witness :
  0 < bits uint16_t
  /\ representable uint16_t 65535
  /\ DeviceProduct.call uint16_t (DeviceProduct.identity uint16_t) 65535
     = Done 65535
  /\ DeviceProduct.call uint16_t 65535 (DeviceProduct.identity uint16_t)
     = Done 65535.
Proof.
  assert (range : representable uint16_t 65535)
    by (vm_compute; split; discriminate).
  split; [done |]. split; [exact range |].
  apply (DeviceProduct_identity_neutral uint16_t 65535);
    [done | exact range].
Defined.

Lemma DeviceMin_DeviceMax_identity_neutral_witness :
  representable int64_t (-5)
  /\ DeviceMin.call int64_t (DeviceMin.identity int64_t) (-5) = -5
  /\ DeviceMin.call int64_t (-5) (DeviceMin.identity int64_t) = -5
  /\ DeviceMax.call int64_t (DeviceMax.identity int64_t) (-5) = -5
  /\ DeviceMax.call int64_t (-5) (DeviceMax.identity int64_t) = -5.
Proof.
  assert (range : representable int64_t (-5))
    by (vm_compute; split; discriminate).
  split; [exact range |].
  apply (DeviceMin_DeviceMax_identity_neutral int64_t (-5)). exact range.
Defined.

Lemma DeviceCount_counts_witness :
  0 < bits int8_t
  /\ representable int8_t (Z.of_nat (length [40; -3; 40]))
  /\ accumulate (DeviceCount.call int8_t) (DeviceCount.identity int8_t)
       [40; -3; 40]
     = Done (Z.of_nat (length [40; -3; 40])).
Proof.
  assert (range : representable int8_t (Z.of_nat (length [40; -3; 40])))
    by (vm_compute; split; discriminate).
  split; [done |]. split; [exact range |].
  apply (DeviceCount_counts int8_t [40; -3; 40]); [done | exact range].
Defined.

Lemma unsigned_sum_and_product_wrap_witness :
  is_signed uint32_t = false
  /\ bits int <= bits uint32_t
  /\ DeviceSum.call uint32_t 4294967295 1 = Done 0
  /\ DeviceProduct.call uint32_t 65536 65536 = Done 0.
Proof.
  split; [reflexivity |]. split; [done |].
  destruct (unsigned_sum_and_product_wrap uint32_t 4294967295 1 0)
    as [[sum _] _]; [reflexivity | done |].
  destruct (unsigned_sum_and_product_wrap uint32_t 65536 65536 0)
    as [_ [product _]]; [reflexivity | done |].
  split; [exact sum | exact product].
Defined.

Lemma remap_sentinel_hash_avoids_sentinel_witness :
  is_signed uint32_t = false
  /\ bits int <= bits uint32_t
  /\ representable uint32_t 0
  /\ exists remapped : Z,
      remap_sentinel_hash uint32_t uint32_t 0 0 = Done remapped
      /\ remapped <> 0
      /\ representable uint32_t remapped
      /\ (0 <> 0 -> remapped = 0).
Proof.
  assert (range : representable uint32_t 0)
    by (vm_compute; split; discriminate).
  split; [reflexivity |]. split; [done |]. split; [exact range |].
  apply (remap_sentinel_hash_avoids_sentinel uint32_t 0 0);
    [reflexivity | done | exact range | exact range].
Defined.

(** What the conversions of [remap_sentinel_hash] do away from that case: a
    16-bit hash equal to its sentinel is remapped in [int], to [-1]; a
    signed sentinel [-1] is compared as the largest 32-bit hash. *)
Example remap_sentinel_hash_conversions :
  remap_sentinel_hash uint16_t uint16_t 0 0 = Done (-1)
  /\ remap_sentinel_hash uint32_t int 4294967295 (-1) = Done 4294967294
  /\ remap_sentinel_hash uint32_t uint32_t 4294967295 4294967295
     = Done 4294967294.
Proof. repeat split. Qed.
End concrete_further.
